(** * oterm: the schema-versioned chat store

    A shallow embedding of [src/oterm/store/store.py] (class [Store]) and of
    the parts of the process it talks to: the SQLite database file behind
    [aiosqlite], the version codec of [oterm.utils], the upgrade registry of
    [oterm.store.upgrades], the [Author] enumeration of [oterm.types] and
    the [json] module.

    Python integers are [Z]; text is [string]; a nullable column is an
    [option]; a table is a finite map from its integer primary key to the
    remaining columns; coroutines are computations in a state-and-exception
    monad over the process state. *)

From stdpp Require Import base option list gmap strings sorting pretty.
From Stdlib Require Import ZArith Lia Ascii String.

Local Open Scope Z_scope.

(** ** Exceptions and results *)

Inductive Exception : Type :=
| ValueError (msg : string)
| TypeError (msg : string)
| OverflowError (msg : string)
| OperationalError (msg : string)
| IntegrityError (msg : string)
| JSONDecodeError (msg : string).

Inductive Result (A : Type) : Type :=
| Ok (a : A)
| Raise (e : Exception).

Arguments Ok {A} a.
Arguments Raise {A} e.

Definition is_Ok {A} (r : Result A) : bool :=
  match r with Ok _ => true | Raise _ => false end.

(** ** Semantic versions *)

Module Version.

(** A version string "major.minor.patch", as its release triple. *)
Record t : Type := mk { major : Z; minor : Z; patch : Z }.

(** The comparison of [packaging.version.parse] on release triples:
    lexicographic on (major, minor, patch). *)
Definition compare (a b : t) : comparison :=
  match major a ?= major b with
  | Eq => match minor a ?= minor b with
          | Eq => patch a ?= patch b
          | c => c
          end
  | c => c
  end.

Definition gtb (a b : t) : bool :=
  match compare a b with Gt => true | _ => false end.

Definition geb (a b : t) : bool :=
  match compare a b with Lt => false | _ => true end.

(** [a > b] lexicographically, written out. *)
Definition gt (a b : t) : Prop :=
  major a > major b
  \/ (major a = major b
      /\ (minor a > minor b
          \/ (minor a = minor b /\ patch a > patch b))).

(** Every component is a non-negative integer below the codec's base. *)
Definition representable (v : t) : Prop :=
  0 <= major v < 1000 /\ 0 <= minor v < 1000 /\ 0 <= patch v < 1000.

Definition representableb (v : t) : bool :=
  (0 <=? major v) && (major v <? 1000)
  && (0 <=? minor v) && (minor v <? 1000)
  && (0 <=? patch v) && (patch v <? 1000).

End Version.

(** ** The version codec ([oterm.utils])

    [store.py] imports [semantic_version_to_int] and
    [int_to_semantic_version] from [oterm.utils]. *)

Module VersionCodec.

Definition BASE : Z := 1000.

(** Modelled from the spec: [oterm.utils.semantic_version_to_int].  Each
    component contributes a fixed-width decimal digit group,
    major*1,000,000 + minor*1,000 + patch; a component outside the
    representable range is a configuration error that fails loudly at
    encode time. *)
Definition semantic_version_to_int (v : Version.t) : Result Z :=
  if Version.representableb v
  then Ok (Version.major v * (BASE * BASE) + Version.minor v * BASE
           + Version.patch v)
  else Raise (ValueError "version component out of range").

(** Modelled from the spec: [oterm.utils.int_to_semantic_version], the
    inverse of the encoding; the never-set header 0 yields 0.0.0. *)
Definition int_to_semantic_version (n : Z) : Version.t :=
  Version.mk (n / (BASE * BASE)) ((n / BASE) mod BASE) (n mod BASE).

End VersionCodec.

Import VersionCodec.

(** ** The SQLite database file

    What [aiosqlite] and the engine do for the statements [store.py]
    issues.  A table with an [INTEGER PRIMARY KEY AUTOINCREMENT] column is
    a finite map from that key to the other columns, together with the
    table's [sqlite_sequence] counter (the largest key the engine ever
    assigned or saw). *)

Module Chat.
(** Columns of ["chat"] other than ["id"]: only ["model"] is NOT NULL. *)
Record row : Type := mk {
  name : option string;
  model : string;
  system : option string;
  format : option string;
  parameters : option string;
  keep_alive : option Z;
  tools : option string
}.
End Chat.

Module Message.
(** Columns of ["message"] other than ["id"]: all NOT NULL; ["chat_id"]
    REFERENCES "chat"("id") ON DELETE CASCADE. *)
Record row : Type := mk {
  chat_id : Z;
  author : string;
  text : string
}.
End Message.

Record Table (R : Type) : Type := mkTable {
  rows : gmap Z R;
  seq : Z
}.

Arguments mkTable {R} rows seq.
Arguments rows {R} t.
Arguments seq {R} t.

Record Database : Type := mkDatabase {
  user_version : Z;                      (* the header slot of PRAGMA user_version *)
  chat : option (Table Chat.row);        (* None: the table does not exist *)
  message : option (Table Message.row)
}.

(** A file that was just created by [connect]: no table, header 0. *)
Definition empty_database : Database := mkDatabase 0 None None.

Definition empty_table {R} : Table R := mkTable ∅ 0.

(** A connection: the file it is bound to and its [PRAGMA foreign_keys]
    setting. *)
Record Connection : Type := mkConnection {
  conn_path : string;
  foreign_keys : bool
}.

(** The engine's per-connection default: foreign-key enforcement is off
    until the connection runs [PRAGMA foreign_keys = ON]. *)
Definition SQLITE_DEFAULT_FOREIGN_KEYS : bool := false.

Definition MAX_ROWID : Z := 2 ^ 63 - 1.
Definition MIN_ROWID : Z := - 2 ^ 63.

(** A Python [int] bound to a statement parameter must fit SQLite's 64-bit
    INTEGER. *)
Definition bind_int (n : Z) : Result Z :=
  if (MIN_ROWID <=? n) && (n <=? MAX_ROWID) then Ok n
  else Raise (OverflowError "Python int too large to convert to SQLite INTEGER").

Definition bind_optional_int (n : option Z) : Result (option Z) :=
  match n with
  | Some n => match bind_int n with Ok n => Ok (Some n) | Raise e => Raise e end
  | None => Ok None
  end.

(** The statement [PRAGMA user_version = n] stores the 32-bit value the
    engine reads from the literal; a literal outside the signed 32-bit
    range is read as 0. *)
Definition atoi32 (n : Z) : Z :=
  if (- 2 ^ 31 <=? n) && (n <? 2 ^ 31) then n else 0.

Definition pragma_set_user_version (n : Z) (db : Database) : Database :=
  mkDatabase (atoi32 n) (chat db) (message db).

Definition pragma_user_version (db : Database) : Z := user_version db.

(** [CREATE TABLE IF NOT EXISTS]: an existing table is left alone. *)
Definition create_table_if_not_exists {R} (t : option (Table R)) : option (Table R) :=
  match t with
  | Some t => Some t
  | None => Some empty_table
  end.

(** Rows in rowid order, the order of a table scan. *)
Definition rowid_le {R} (x y : Z * R) : Prop := x.1 ≤ y.1.

#[global] Instance rowid_le_dec {R} : RelDecision (@rowid_le R) :=
  λ x y, Z_le_dec x.1 y.1.

Definition scan {R} (m : gmap Z R) : list (Z * R) :=
  merge_sort rowid_le (map_to_list m).

(** The largest key of a table (0 for a table without positive keys). *)
Definition largest_rowid {R} (m : gmap Z R) : Z :=
  map_fold (λ k _ acc, Z.max k acc) 0 m.

(** The key AUTOINCREMENT chooses for a row inserted with a NULL id: one
    more than the largest key present or ever recorded; there is none
    after [MAX_ROWID]. *)
Definition new_rowid {R} (t : Table R) : Result Z :=
  let largest := Z.max (largest_rowid (rows t)) (seq t) in
  if MAX_ROWID <=? largest
  then Raise (OperationalError "database or disk is full")
  else Ok (largest + 1).

(** [INSERT OR REPLACE INTO t(id, ...) VALUES (:id, ...)]: a NULL id gets a
    new key; a given id replaces whatever row has that key.  Returns the
    key of the inserted row ([last_insert_rowid()]). *)
Definition insert_or_replace {R} (id : option Z) (r : R) (t : Table R)
  : Result (Z * Table R) :=
  match id with
  | None =>
      match new_rowid t with
      | Ok i => Ok (i, mkTable (<[i := r]> (rows t)) i)
      | Raise e => Raise e
      end
  | Some i => Ok (i, mkTable (<[i := r]> (rows t)) (Z.max (seq t) i))
  end.

(** ON DELETE CASCADE for ["message"."chat_id"]: the rows referencing a
    deleted chat go with it. *)
Definition cascade_delete (id : Z) (t : Table Message.row) : Table Message.row :=
  mkTable (filter (λ kr : Z * Message.row, Message.chat_id kr.2 ≠ id) (rows t))
          (seq t).

(** The foreign-key action taken when the chat row [id] is deleted, on a
    connection with the given [foreign_keys] setting. *)
Definition on_delete_chat (fk : bool) (id : Z) (m : option (Table Message.row))
  : option (Table Message.row) :=
  if fk then cascade_delete id <$> m else m.

Definition no_such_table {A} (t : string) : Result A :=
  Raise (OperationalError ("no such table: " +:+ t)).

(** A statement run on a connection: its result and the file afterwards.
    A statement that fails leaves the file as it was. *)
Definition Statement (A : Type) : Type :=
  Connection → Database → Result A * Database.

(** [INSERT OR REPLACE INTO chat(...) VALUES(...) RETURNING id], followed
    by [SELECT last_insert_rowid()] ([execute_insert]). *)
Definition sql_insert_or_replace_chat (id : option Z) (r : Chat.row)
  : Statement Z := λ connection db,
  match chat db with
  | None => (no_such_table "chat", db)
  | Some t =>
      match insert_or_replace id r t with
      | Raise e => (Raise e, db)
      | Ok (i, t') =>
          let replaced := bool_decide (is_Some (rows t !! i)) in
          (Ok i,
           mkDatabase (user_version db) (Some t')
             (on_delete_chat (foreign_keys connection && replaced) i
                (message db)))
      end
  end.

(** [UPDATE chat SET name = :name WHERE id = :id]. *)
Definition sql_update_chat_name (id : Z) (name : string) : Statement unit :=
  λ connection db,
  match chat db with
  | None => (no_such_table "chat", db)
  | Some t =>
      let set r :=
        Chat.mk (Some name) (Chat.model r) (Chat.system r) (Chat.format r)
          (Chat.parameters r) (Chat.keep_alive r) (Chat.tools r) in
      (Ok tt,
       mkDatabase (user_version db)
         (Some (mkTable (alter set id (rows t)) (seq t))) (message db))
  end.

(** [UPDATE chat SET name = :name, system = :system, format = :format,
    parameters = :parameters, keep_alive = :keep_alive, tools = :tools
    WHERE id = :id]. *)
Definition sql_update_chat (id : Z) (name : string) (system : option string)
    (format : string) (parameters : string) (keep_alive : Z) (tools : string)
  : Statement unit := λ connection db,
  match chat db with
  | None => (no_such_table "chat", db)
  | Some t =>
      let set r :=
        Chat.mk (Some name) (Chat.model r) system (Some format)
          (Some parameters) (Some keep_alive) (Some tools) in
      (Ok tt,
       mkDatabase (user_version db)
         (Some (mkTable (alter set id (rows t)) (seq t))) (message db))
  end.

(** [SELECT id, name, ... FROM chat]. *)
Definition sql_select_chats : Statement (list (Z * Chat.row)) :=
  λ connection db,
  match chat db with
  | None => (no_such_table "chat", db)
  | Some t => (Ok (scan (rows t)), db)
  end.

(** [SELECT id, name, ... FROM chat WHERE id = :id]. *)
Definition sql_select_chat (id : Z) : Statement (list (Z * Chat.row)) :=
  λ connection db,
  match chat db with
  | None => (no_such_table "chat", db)
  | Some t =>
      (Ok (match rows t !! id with Some r => [(id, r)] | None => [] end), db)
  end.

(** [DELETE FROM chat WHERE id = :id]. *)
Definition sql_delete_chat (id : Z) : Statement unit := λ connection db,
  match chat db with
  | None => (no_such_table "chat", db)
  | Some t =>
      let deleted := bool_decide (is_Some (rows t !! id)) in
      (Ok tt,
       mkDatabase (user_version db)
         (Some (mkTable (delete id (rows t)) (seq t)))
         (on_delete_chat (foreign_keys connection && deleted) id
            (message db)))
  end.

(** [INSERT OR REPLACE INTO message(...) VALUES(...) RETURNING id], followed
    by [SELECT last_insert_rowid()].  With foreign keys enforced the
    referenced chat must exist. *)
Definition sql_insert_or_replace_message (id : option Z) (r : Message.row)
  : Statement Z := λ connection db,
  match message db with
  | None => (no_such_table "message", db)
  | Some t =>
      let parent :=
        match chat db with
        | Some c => bool_decide (is_Some (rows c !! Message.chat_id r))
        | None => false
        end in
      if foreign_keys connection && negb parent
      then (Raise (IntegrityError "FOREIGN KEY constraint failed"), db)
      else
        match insert_or_replace id r t with
        | Raise e => (Raise e, db)
        | Ok (i, t') => (Ok i, mkDatabase (user_version db) (chat db) (Some t'))
        end
  end.

(** [SELECT id, author, text FROM message WHERE chat_id = :chat_id]. *)
Definition sql_select_messages (chat_id : Z)
  : Statement (list (Z * string * string)) := λ connection db,
  match message db with
  | None => (no_such_table "message", db)
  | Some t =>
      (Ok ((λ kr : Z * Message.row,
              (kr.1, Message.author kr.2, Message.text kr.2))
           <$> filter (λ kr : Z * Message.row, Message.chat_id kr.2 = chat_id)
                 (scan (rows t))),
       db)
  end.

(** The script [get_store] runs on a new file: both tables, IF NOT EXISTS. *)
Definition sql_base_schema : Statement unit := λ connection db,
  (Ok tt,
   mkDatabase (user_version db)
     (create_table_if_not_exists (chat db))
     (create_table_if_not_exists (message db))).

(** ** The process: files, the singleton and coroutines *)

(** An upgrade action of [oterm.store.upgrades]: a coroutine given the
    path of the database file, which opens its own connection and changes
    the file; it may raise, and what it changed before raising stays. *)
Definition Step : Type := Database → Result unit * Database.

(** An instance of class [Store]. *)
Record Store : Type := mkStore { db_path : string }.

Record World : Type := mkWorld {
  _store : option Store;             (* the class attribute Store._store *)
  dirs : gset string;                (* directories that exist *)
  files : gmap string Database;      (* database files that exist, by path *)
  awaited : list (Version.t * Step)  (* upgrade actions awaited so far, with
                                        the target version of their entry *)
}.

Definition set_store (s : option Store) (w : World) : World :=
  mkWorld s (dirs w) (files w) (awaited w).

Definition set_dirs (d : gset string) (w : World) : World :=
  mkWorld (_store w) d (files w) (awaited w).

Definition set_files (f : gmap string Database) (w : World) : World :=
  mkWorld (_store w) (dirs w) f (awaited w).

Definition set_awaited (l : list (Version.t * Step)) (w : World) : World :=
  mkWorld (_store w) (dirs w) (files w) l.

(** A coroutine: it runs from a state of the process to a result, or a raised
    exception, and the state it leaves. *)
Definition IO (A : Type) : Type := World → Result A * World.

#[global] Instance IO_ret : MRet IO := λ A a w, (Ok a, w).

#[global] Instance IO_bind : MBind IO := λ A B f m w,
  match m w with
  | (Ok a, w') => f a w'
  | (Raise e, w') => (Raise e, w')
  end.

#[global] Instance Result_ret : MRet Result := λ A a, Ok a.

#[global] Instance Result_bind : MBind Result := λ A B f r,
  match r with
  | Ok a => f a
  | Raise e => Raise e
  end.

(** A pure expression that may raise. *)
Definition eval {A} (r : Result A) : IO A := λ w, (r, w).

(** [for x in l: body(x)]. *)
Fixpoint for_each {A} (l : list A) (body : A → IO unit) : IO unit :=
  match l with
  | [] => mret tt
  | x :: l' => body x ;; for_each l' body
  end.

(** [[f(x) for x in l]] where [f] may raise. *)
Fixpoint comprehension {A B} (f : A → Result B) (l : list A) : Result (list B) :=
  match l with
  | [] => Ok []
  | x :: l' =>
      match f x with
      | Raise e => Raise e
      | Ok y =>
          match comprehension f l' with
          | Raise e => Raise e
          | Ok ys => Ok (y :: ys)
          end
      end
  end.

(** Reading and assigning the class attribute [Store._store]. *)
Definition read_store : IO (option Store) := λ w, (Ok (_store w), w).

Definition write_store (s : Store) : IO unit := λ w,
  (Ok tt, set_store (Some s) w).

(** [Path.mkdir(parents=True, exist_ok=True)]. *)
Definition mkdir (p : string) : IO unit := λ w,
  (Ok tt, set_dirs ({[p]} ∪ dirs w) w).

(** [Path.exists()] on a database path. *)
Definition path_exists (p : string) : IO bool := λ w,
  (Ok (bool_decide (is_Some (files w !! p))), w).

(** [aiosqlite.connect(path)]: a missing file is created empty; the new
    connection has the engine's default settings. *)
Definition connect (database : string) : IO Connection := λ w,
  (Ok (mkConnection database SQLITE_DEFAULT_FOREIGN_KEYS),
   match files w !! database with
   | Some _ => w
   | None => set_files (<[database := empty_database]> (files w)) w
   end).

(** [connection.execute(...)] and its variants, committed when the
    connection is left. *)
Definition execute {A} (connection : Connection) (stmt : Statement A) : IO A :=
  λ w,
  match files w !! conn_path connection with
  | Some db =>
      let '(r, db') := stmt connection db in
      (r, set_files (<[conn_path connection := db']> (files w)) w)
  | None => (Raise (OperationalError "unable to open database file"), w)
  end.

(** [await step(path)]. *)
Definition await_step (version : Version.t) (step : Step) (path : string)
  : IO unit := λ w,
  let '(r, db') := step (default empty_database (files w !! path)) in
  (r, set_awaited (awaited w ++ [(version, step)])
        (set_files (<[path := db']> (files w)) w)).

(** Actions run one after the other on the file, as far as the first that
    raises. *)
Fixpoint run_steps (l : list Step) (db : Database) : Result unit * Database :=
  match l with
  | [] => (Ok tt, db)
  | step :: l' =>
      match step db with
      | (Ok _, db') => run_steps l' db'
      | (Raise e, db') => (Raise e, db')
      end
  end.

(** The actions of [l] that get awaited when they are run one after the
    other on the file: all up to and including the first that raises. *)
Fixpoint called (l : list (Version.t * Step)) (db : Database)
  : list (Version.t * Step) :=
  match l with
  | [] => []
  | (version, step) :: l' =>
      (version, step) ::
      match step db with
      | (Ok _, db') => called l' db'
      | (Raise _, _) => []
      end
  end.

(** Awaiting a list of actions in order. *)
Definition await_all (path : string) (l : list (Version.t * Step)) : IO unit :=
  for_each l (λ '(version, step), await_step version step path).

(** An action that leaves the header slot alone. *)
Definition keeps_header (step : Step) : Prop :=
  ∀ db, user_version (step db).2 = user_version db.

(** ** A JSON codec

    [json.dumps] and [json.loads] restricted to documents built from
    integers, strings without escapes, arrays and objects: enough to run the
    store on concrete chats. *)

Module MiniJson.

#[warnings="-register-all"]
Inductive t : Type :=
| Int (n : Z)
| Str (s : string)
| Arr (l : list t)
| Obj (l : list (string * t)).

Definition quote (s : string) : string :=
  String "034" (s +:+ String "034" EmptyString).

Definition join (l : list string) : string :=
  match l with
  | [] => ""
  | x :: l' => fold_left (λ acc y, acc +:+ ", " +:+ y) l' x
  end.

Fixpoint dumps (v : t) : string :=
  match v with
  | Int n => pretty n
  | Str s => quote s
  | Arr l => "[" +:+ join (map dumps l) +:+ "]"
  | Obj l =>
      "{" +:+ join (map (λ kv : string * t, quote kv.1 +:+ ": " +:+ dumps kv.2) l)
      +:+ "}"
  end.

Fixpoint skip (s : string) : string :=
  match s with
  | String " " s' => skip s'
  | _ => s
  end.

Definition digit (c : ascii) : option Z :=
  let n := Z.of_nat (nat_of_ascii c) in
  if (48 <=? n) && (n <=? 57) then Some (n - 48) else None.

Fixpoint digits (acc : Z) (s : string) : Z * string :=
  match s with
  | String c s' =>
      match digit c with
      | Some d => digits (10 * acc + d) s'
      | None => (acc, s)
      end
  | EmptyString => (acc, s)
  end.

Fixpoint text (acc : string) (s : string) : option (string * string) :=
  match s with
  | String "034" s' => Some (acc, s')
  | String c s' => text (acc +:+ String c EmptyString) s'
  | EmptyString => None
  end.

Fixpoint value (fuel : nat) (s : string) : option (t * string) :=
  match fuel with
  | O => None
  | S fuel =>
      let elements := fix elements (n : nat) (acc : list t) (s : string) :=
        match n with
        | O => None
        | S n =>
            match value fuel s with
            | Some (v, s') =>
                match skip s' with
                | String "," s'' => elements n (acc ++ [v]) s''
                | String "]" s'' => Some (Arr (acc ++ [v]), s'')
                | _ => None
                end
            | None => None
            end
        end in
      let members := fix members (n : nat) (acc : list (string * t)) (s : string) :=
        match n with
        | O => None
        | S n =>
            match skip s with
            | String "034" s1 =>
                match text "" s1 with
                | Some (k, s2) =>
                    match skip s2 with
                    | String ":" s3 =>
                        match value fuel s3 with
                        | Some (v, s4) =>
                            match skip s4 with
                            | String "," s5 => members n (acc ++ [(k, v)]) s5
                            | String "}" s5 => Some (Obj (acc ++ [(k, v)]), s5)
                            | _ => None
                            end
                        | None => None
                        end
                    | _ => None
                    end
                | None => None
                end
            | _ => None
            end
        end in
      match skip s with
      | String "[" s' =>
          match skip s' with
          | String "]" s'' => Some (Arr [], s'')
          | _ => elements (String.length s) [] s'
          end
      | String "{" s' =>
          match skip s' with
          | String "}" s'' => Some (Obj [], s'')
          | _ => members (String.length s) [] s'
          end
      | String "034" s' =>
          match text "" s' with
          | Some (k, s'') => Some (Str k, s'')
          | None => None
          end
      | String "-" s' =>
          match s' with
          | String c _ =>
              match digit c with
              | Some _ => let '(n, s'') := digits 0 s' in Some (Int (- n), s'')
              | None => None
              end
          | _ => None
          end
      | String c _ =>
          match digit c with
          | Some _ => let '(n, s'') := digits 0 (skip s) in Some (Int n, s'')
          | None => None
          end
      | EmptyString => None
      end
  end.

Definition loads (s : string) : Result t :=
  match value (String.length s) s with
  | Some (v, rest) =>
      match skip rest with
      | EmptyString => Ok v
      | _ => Raise (JSONDecodeError "Extra data")
      end
  | None => Raise (JSONDecodeError "Expecting value")
  end.

(** [json.dumps] never raises on these documents. *)
Definition json_dumps (v : t) : Result string := Ok (dumps v).

End MiniJson.

(** ** Sample data

    A data directory, releases, upgrade actions, an [Author] enumeration and
    database files on which the store is run. *)

Module Sample.

Definition data_dir : string := "/home/user/.local/share/oterm".

Definition path : string := "/home/user/.local/share/oterm/store.db".

Definition store : Store := mkStore path.

Definition v1_0_0 : Version.t := Version.mk 1 0 0.
Definition v1_1_0 : Version.t := Version.mk 1 1 0.
Definition v1_2_0 : Version.t := Version.mk 1 2 0.

(** An action that backfills the keep_alive column. *)
Definition backfill_keep_alive : Step := λ db,
  (Ok tt,
   mkDatabase (user_version db)
     ((λ t, mkTable
              ((λ r, Chat.mk (Chat.name r) (Chat.model r) (Chat.system r)
                       (Chat.format r) (Chat.parameters r) (Some 5)
                       (Chat.tools r)) <$> rows t)
              (seq t)) <$> chat db)
     (message db)).

(** An action that clears the format column. *)
Definition clear_format : Step := λ db,
  (Ok tt,
   mkDatabase (user_version db)
     ((λ t, mkTable
              ((λ r, Chat.mk (Chat.name r) (Chat.model r) (Chat.system r)
                       (Some "") (Chat.parameters r) (Chat.keep_alive r)
                       (Chat.tools r)) <$> rows t)
              (seq t)) <$> chat db)
     (message db)).

(** An action whose statement is rejected by the engine. *)
Definition add_existing_column : Step := λ db,
  (Raise (OperationalError "duplicate column name: tools"), db).

Definition registry : list (Version.t * list Step) :=
  [(v1_1_0, [backfill_keep_alive]); (v1_2_0, [clear_format])].

Definition failing_registry : list (Version.t * list Step) :=
  [(v1_1_0, [backfill_keep_alive; add_existing_column])].

Inductive author : Type := USER | OLLAMA.

Definition author_members : list author := [USER; OLLAMA].

Definition author_value (a : author) : string :=
  match a with
  | USER => "me"
  | OLLAMA => "ollama"
  end.

Definition chat_row : Chat.row :=
  Chat.mk None "llama3" None None (Some "{}") None (Some "[]").

(** A file written by release 1.0.0, with one chat and two of its
    messages. *)
Definition database : Database :=
  mkDatabase 1000000
    (Some (mkTable {[1 := chat_row]} 1))
    (Some (mkTable {[1 := Message.mk 1 "me" "hello";
                     2 := Message.mk 1 "ollama" "hi"]} 2)).

(** The same with a third message whose author text is no [Author]. *)
Definition database_with_stranger : Database :=
  mkDatabase 1000000
    (Some (mkTable {[1 := chat_row]} 1))
    (Some (mkTable {[1 := Message.mk 1 "me" "hello";
                     2 := Message.mk 1 "ollama" "hi";
                     3 := Message.mk 1 "system" "be brief"]} 3)).

(** A process that has not opened the store, without and with the file. *)
Definition fresh : World := mkWorld None ∅ ∅ [].

Definition installed : World :=
  mkWorld None {[data_dir]} {[path := database]} [].

(** A process with the store open. *)
Definition running : World :=
  mkWorld (Some store) {[data_dir]} {[path := database]} [].

Definition temperature : MiniJson.t :=
  MiniJson.Obj [("temperature", MiniJson.Int 7)].

Definition no_tools : MiniJson.t := MiniJson.Arr [].


(** A chat row whose parameters column is NULL. *)
Definition chat_row_without_parameters : Chat.row :=
  Chat.mk (Some "old") "llama2" None None None None (Some "[]").

(** A process with the store open on a file that holds such a row. *)
Definition damaged_database : Database :=
  mkDatabase 1000000
    (Some (mkTable {[1 := chat_row; 2 := chat_row_without_parameters]} 2))
    (Some empty_table).

Definition damaged : World :=
  mkWorld (Some store) {[data_dir]} {[path := damaged_database]} [].

(** The tables of the sample file. *)
Definition chats : Table Chat.row := mkTable {[1 := chat_row]} 1.

Definition messages : Table Message.row :=
  mkTable {[1 := Message.mk 1 "me" "hello"; 2 := Message.mk 1 "ollama" "hi"]} 2.

End Sample.

(** ** class Store *)

Section Store.

Set Default Proof Using "Type".

(** [envConfig.OTERM_DATA_DIR]. *)
Variable OTERM_DATA_DIR : string.

(** [metadata.version("oterm")], the version of the running application. *)
Variable current_version : Version.t.

(** [oterm.store.upgrades.upgrades]: target versions with their actions, in
    declaration order. *)
Variable upgrades : list (Version.t * list Step).

(** The values [json] serializes ([Options], [list[Tool]]), with
    [json.dumps] and [json.loads]. *)
Variable Json : Type.
Variable json_dumps : Json → Result string.
Variable json_loads : string → Result Json.

(** [oterm.types.Author], an [Enum]: its members and the value of each. *)
Variable Author : Type.
Variable Author_members : list Author.
Variable Author_value : Author → string.

(** [Author(value)]: the first member with that value, else [ValueError]. *)
Definition Author_call (value : string) : Result Author :=
  match find (λ m, bool_decide (Author_value m = value)) Author_members with
  | Some m => Ok m
  | None => Raise (ValueError (value +:+ " is not a valid Author"))
  end.

(** [json.loads] of a column: NULL is not a [str]. *)
Definition json_loads_column (c : option string) : Result Json :=
  match c with
  | Some s => json_loads s
  | None => Raise (TypeError "the JSON object must be str, bytes or bytearray, not NoneType")
  end.

Definition get_user_version (self : Store) : IO Version.t :=
  connection ← connect (db_path self);
  res ← execute connection (λ _ db, (Ok (pragma_user_version db), db));
  mret (int_to_semantic_version res).

Definition set_user_version (self : Store) (version : Version.t) : IO unit :=
  connection ← connect (db_path self);
  n ← eval (semantic_version_to_int version);
  execute connection (λ _ db, (Ok tt, pragma_set_user_version n db)).

(** The walk over the registry in [get_store]'s upgrade branch. *)
Definition apply_upgrades (self : Store) (db_version : Version.t) : IO unit :=
  for_each upgrades (λ '(version, steps),
    if Version.geb current_version version && Version.gtb version db_version
    then for_each steps (λ step, await_step version step (db_path self))
    else mret tt).

Definition get_store : IO Store :=
  cached ← read_store;
  match cached with
  | Some store => mret store
  | None =>
      let data_path := OTERM_DATA_DIR in
      mkdir data_path ;;
      let self := mkStore (data_path +:+ "/store.db") in
      present ← path_exists (db_path self);
      (if negb present then
         (* Create tables and set user_version *)
         connection ← connect (db_path self);
         execute connection sql_base_schema ;;
         set_user_version self current_version
       else
         (* Upgrade database *)
         db_version ← get_user_version self;
         apply_upgrades self db_version ;;
         set_user_version self current_version) ;;
      write_store self ;;
      mret self
  end.

Definition save_chat (self : Store) (id : option Z) (name model : string)
    (system : option string) (format : string) (parameters : Json)
    (keep_alive : Z) (tools : Json) : IO Z :=
  connection ← connect (db_path self);
  parameters ← eval (json_dumps parameters);
  tools ← eval (json_dumps tools);
  id ← eval (bind_optional_int id);
  keep_alive ← eval (bind_int keep_alive);
  execute connection
    (sql_insert_or_replace_chat id
       (Chat.mk (Some name) model system (Some format) (Some parameters)
          (Some keep_alive) (Some tools))).

Definition rename_chat (self : Store) (id : Z) (name : string) : IO unit :=
  connection ← connect (db_path self);
  id ← eval (bind_int id);
  execute connection (sql_update_chat_name id name).

Definition edit_chat (self : Store) (id : Z) (name : string)
    (system : option string) (format : string) (parameters : Json)
    (keep_alive : Z) (tools : Json) : IO unit :=
  connection ← connect (db_path self);
  parameters ← eval (json_dumps parameters);
  tools ← eval (json_dumps tools);
  id ← eval (bind_int id);
  keep_alive ← eval (bind_int keep_alive);
  execute connection
    (sql_update_chat id name system format parameters keep_alive tools).

(** The tuple [get_chats] and [get_chat] build from a selected row. *)
Definition ChatTuple : Type :=
  Z * option string * string * option string * option string * Json
  * option Z * Json.

Definition chat_tuple (kr : Z * Chat.row) : Result ChatTuple :=
  let '(id, r) := kr in
  parameters ← json_loads_column (Chat.parameters r);
  tools ← json_loads_column (Chat.tools r);
  mret (id, Chat.name r, Chat.model r, Chat.system r, Chat.format r,
        parameters, Chat.keep_alive r, tools).

Definition get_chats (self : Store) : IO (list ChatTuple) :=
  connection ← connect (db_path self);
  chats ← execute connection sql_select_chats;
  eval (comprehension chat_tuple chats).

Definition get_chat (self : Store) (id : Z) : IO (option ChatTuple) :=
  connection ← connect (db_path self);
  id ← eval (bind_int id);
  chat ← execute connection (sql_select_chat id);
  match head chat with
  | Some chat => res ← eval (chat_tuple chat); mret (Some res)
  | None => mret None
  end.

Definition delete_chat (self : Store) (id : Z) : IO unit :=
  connection ← connect (db_path self);
  id ← eval (bind_int id);
  execute connection (sql_delete_chat id).

Definition save_message (self : Store) (id : option Z) (chat_id : Z)
    (author text : string) : IO Z :=
  connection ← connect (db_path self);
  id ← eval (bind_optional_int id);
  chat_id ← eval (bind_int chat_id);
  execute connection
    (sql_insert_or_replace_message id (Message.mk chat_id author text)).

(** The tuple [get_messages] builds from a selected row. *)
Definition message_tuple (m : Z * string * string)
  : Result (Z * Author * string) :=
  let '(id, author, text) := m in
  author ← Author_call author;
  mret (id, author, text).

Definition get_messages (self : Store) (chat_id : Z)
  : IO (list (Z * Author * string)) :=
  connection ← connect (db_path self);
  chat_id ← eval (bind_int chat_id);
  messages ← execute connection (sql_select_messages chat_id);
  eval (comprehension message_tuple messages).

(** The row [edit_chat] writes in place of [r]. *)
Definition edited (name : string) (system : option string) (format : string)
    (parameters : string) (keep_alive : Z) (tools : string) (r : Chat.row)
  : Chat.row :=
  Chat.mk (Some name) (Chat.model r) system (Some format) (Some parameters)
    (Some keep_alive) (Some tools).

(** *** The upgrade path as the specification states it *)

(** [self.db_path] of the store [get_store] builds. *)
Definition store_db_path : string := OTERM_DATA_DIR +:+ "/store.db".

(** An entry is applied iff current_version >= entry.targetVersion and
    entry.targetVersion > db_version. *)
Definition eligible (db_version : Version.t) (entry : Version.t * list Step)
  : bool :=
  Version.geb current_version entry.1 && Version.gtb entry.1 db_version.

(** The actions of the eligible entries, in declaration order, each with
    the target version of its entry. *)
Definition pending (db_version : Version.t) : list (Version.t * Step) :=
  flat_map (λ entry, (λ step, (entry.1, step)) <$> entry.2)
    (List.filter (eligible db_version) upgrades).

(** The author text converts to a member of [Author]. *)
Definition valid_author (value : string) : Prop :=
  ∃ m, m ∈ Author_members ∧ Author_value m = value.


(** *** Views of the tables used to state what the calls return *)

(** The rows [get_messages] selects for a chat, as the tuples it converts. *)
Definition selected (chat_id : Z) (t : Table Message.row)
  : list (Z * string * string) :=
  (λ kr : Z * Message.row, (kr.1, Message.author kr.2, Message.text kr.2))
  <$> filter (λ kr : Z * Message.row, Message.chat_id kr.2 = chat_id)
        (scan (rows t)).

(** What [get_chat] returns for the row stored under [id], if any. *)
Definition fetched (id : Z) (row : option Chat.row)
  : Result (option ChatTuple) :=
  match row with
  | Some r => tuple ← chat_tuple (id, r); mret (Some tuple)
  | None => Ok None
  end.

(** The row [rename_chat] writes in place of [r]. *)
Definition renamed (name : string) (r : Chat.row) : Chat.row :=
  Chat.mk (Some name) (Chat.model r) (Chat.system r) (Chat.format r)
    (Chat.parameters r) (Chat.keep_alive r) (Chat.tools r).

(** * Properties *)

(** ** Version order and codec *)

Lemma representableb_spec v :
  Version.representableb v = true <-> Version.representable v.
Proof.
  unfold Version.representableb, Version.representable.
  rewrite !andb_true_iff, !Z.leb_le, !Z.ltb_lt.
  split; [intros [[[[[??]?]?]?]?]|intros [[??][[??][??]]]]; done.
Qed.

Lemma version_eta v :
  Version.mk (Version.major v) (Version.minor v) (Version.patch v) = v.
Proof. by destruct v. Qed.

Lemma compare_antisym a b :
  Version.compare b a = CompOpp (Version.compare a b).
Proof.
  unfold Version.compare.
  rewrite (Z.compare_antisym (Version.major a)),
    (Z.compare_antisym (Version.minor a)),
    (Z.compare_antisym (Version.patch a)).
  destruct (Version.major a ?= Version.major b); simpl; try done.
  destruct (Version.minor a ?= Version.minor b); simpl; done.
Qed.

Lemma gtb_gt a b : Version.gtb a b = true <-> Version.gt a b.
Proof.
  unfold Version.gtb, Version.gt, Version.compare.
  destruct (Z.compare_spec (Version.major a) (Version.major b));
    [destruct (Z.compare_spec (Version.minor a) (Version.minor b));
     [destruct (Z.compare_spec (Version.patch a) (Version.patch b))| |]| |];
    split; (done || lia).
Qed.

Lemma geb_not_gtb a b : Version.geb a b = true -> Version.gtb b a = false.
Proof.
  unfold Version.geb, Version.gtb. rewrite (compare_antisym a b).
  by destruct (Version.compare a b).
Qed.


Lemma semantic_version_to_int_representable v :
  Version.representable v ->
  semantic_version_to_int v =
    Ok (Version.major v * 1000000 + Version.minor v * 1000 + Version.patch v).
Proof.
  intros Hv. unfold semantic_version_to_int.
  apply representableb_spec in Hv. by rewrite Hv.
Qed.

Lemma semantic_version_to_int_Ok v n :
  semantic_version_to_int v = Ok n ->
  Version.representable v
  /\ n = Version.major v * 1000000 + Version.minor v * 1000 + Version.patch v.
Proof.
  unfold semantic_version_to_int.
  destruct (Version.representableb v) eqn:Hb; [|done].
  intros [= <-]. split; [by apply representableb_spec | done].
Qed.

Lemma semantic_version_to_int_range v n :
  semantic_version_to_int v = Ok n -> 0 <= n < 1000000000.
Proof.
  intros [(Ha & Hb & Hc) ->]%semantic_version_to_int_Ok. lia.
Qed.

Lemma int_to_semantic_version_digits a b c :
  0 <= b < 1000 -> 0 <= c < 1000 ->
  int_to_semantic_version (a * 1000000 + b * 1000 + c) = Version.mk a b c.
Proof.
  intros Hb Hc. unfold int_to_semantic_version, BASE. f_equal.
  - assert (0 <= b * 1000 + c < 1000 * 1000) by lia.
    replace (a * 1000000 + b * 1000 + c)
      with (a * (1000 * 1000) + (b * 1000 + c)) by ring.
    rewrite Z.div_add_l by lia.
    rewrite (Z.div_small (b * 1000 + c)) by done. lia.
  - replace (a * 1000000 + b * 1000 + c)
      with ((a * 1000 + b) * 1000 + c) by ring.
    rewrite Z.div_add_l by lia. rewrite (Z.div_small c) by done.
    rewrite Z.add_0_r.
    rewrite Z.add_comm, Z.mod_add by lia. by apply Z.mod_small.
  - replace (a * 1000000 + b * 1000 + c)
      with (c + (a * 1000 + b) * 1000) by ring.
    rewrite Z.mod_add by lia. by apply Z.mod_small.
Qed.

Lemma decode_encode v n :
  semantic_version_to_int v = Ok n -> int_to_semantic_version n = v.
Proof.
  intros [(_ & Hb & Hc) ->]%semantic_version_to_int_Ok.
  rewrite int_to_semantic_version_digits by done. apply version_eta.
Qed.

Lemma atoi32_encoded v n : semantic_version_to_int v = Ok n -> atoi32 n = n.
Proof.
  intros H%semantic_version_to_int_range. unfold atoi32.
  destruct (Z.leb_spec (- 2 ^ 31) n), (Z.ltb_spec n (2 ^ 31)); simpl; lia.
Qed.

(** C5. For every version whose three components are non-negative integers
    below 1000, encoding succeeds and decoding the encoded integer gives the
    version back: int_to_semantic_version(semantic_version_to_int(v)) == v. *)
Theorem decode_encode_roundtrip (v : Version.t) :
  Version.representable v ->
  exists n, semantic_version_to_int v = Ok n
            /\ int_to_semantic_version n = v.
Proof.
  intros Hv. eexists. split.
  - by apply semantic_version_to_int_representable.
  - destruct Hv as (_ & Hb & Hc).
    rewrite int_to_semantic_version_digits by done. apply version_eta.
Qed.

(** C6. The encoding is strictly monotonic: for representable versions a and
    b, if a > b lexicographically by (major, minor, patch) then the integer
    encoding a is greater than the integer encoding b. *)
Theorem encode_strictly_monotonic (a b : Version.t) :
  Version.representable a -> Version.representable b ->
  Version.gt a b ->
  exists na nb, semantic_version_to_int a = Ok na
                /\ semantic_version_to_int b = Ok nb
                /\ na > nb.
Proof.
  intros Ha Hb Hgt. do 2 eexists.
  split; [by apply semantic_version_to_int_representable|].
  split; [by apply semantic_version_to_int_representable|].
  destruct Ha as (Ha1 & Ha2 & Ha3), Hb as (Hb1 & Hb2 & Hb3).
  unfold Version.gt in Hgt. lia.
Qed.

(** ** Files, connections and the upgrade walk *)

Lemma set_files_same w : set_files (files w) w = w.
Proof. by destruct w. Qed.

Lemma connect_existing p w db :
  files w !! p = Some db ->
  connect p w = (Ok (mkConnection p SQLITE_DEFAULT_FOREIGN_KEYS), w).
Proof. intros H. unfold connect. by rewrite H. Qed.

Lemma connect_missing p w :
  files w !! p = None ->
  connect p w = (Ok (mkConnection p SQLITE_DEFAULT_FOREIGN_KEYS),
                 set_files (<[p := empty_database]> (files w)) w).
Proof. intros H. unfold connect. by rewrite H. Qed.

Lemma execute_existing {A} p fk (stmt : Statement A) w db :
  files w !! p = Some db ->
  execute (mkConnection p fk) stmt w =
    ((stmt (mkConnection p fk) db).1,
     set_files (<[p := (stmt (mkConnection p fk) db).2]> (files w)) w).
Proof.
  intros H. unfold execute. simpl. rewrite H.
  by destruct (stmt (mkConnection p fk) db).
Qed.

Lemma get_user_version_existing self w db :
  files w !! db_path self = Some db ->
  get_user_version self w = (Ok (int_to_semantic_version (user_version db)), w).
Proof.
  intros H. unfold get_user_version, mbind, IO_bind.
  rewrite (connect_existing _ _ _ H), (execute_existing _ _ _ _ _ H). simpl.
  by rewrite (insert_id _ _ _ H), set_files_same.
Qed.

Lemma set_user_version_existing self v w db n :
  files w !! db_path self = Some db ->
  semantic_version_to_int v = Ok n ->
  set_user_version self v w =
    (Ok tt,
     set_files (<[db_path self := pragma_set_user_version n db]> (files w)) w).
Proof.
  intros H Hn. unfold set_user_version, mbind, IO_bind, eval.
  rewrite (connect_existing _ _ _ H), Hn.
  by rewrite (execute_existing _ _ _ _ _ H).
Qed.

Lemma set_user_version_raises self v w db e :
  files w !! db_path self = Some db ->
  semantic_version_to_int v = Raise e ->
  set_user_version self v w = (Raise e, w).
Proof.
  intros H Hn. unfold set_user_version, mbind, IO_bind, eval.
  by rewrite (connect_existing _ _ _ H), Hn.
Qed.

Lemma for_each_app {A} (l1 l2 : list A) (body : A → IO unit) w :
  for_each (l1 ++ l2) body w = (for_each l1 body ;; for_each l2 body) w.
Proof.
  revert w. induction l1 as [|x l1 IH]; intros w; simpl; [done|].
  unfold mbind, IO_bind in *.
  destruct (body x w) as [[[]|e] w1]; [|done]. apply IH.
Qed.

Lemma await_all_app path l1 l2 w :
  await_all path (l1 ++ l2) w = (await_all path l1 ;; await_all path l2) w.
Proof. apply for_each_app. Qed.

Lemma await_all_tagged path version (steps : list Step) w :
  await_all path ((λ step, (version, step)) <$> steps) w =
    for_each steps (λ step, await_step version step path) w.
Proof.
  revert w. unfold await_all.
  induction steps as [|s steps IH]; intros w; simpl; [done|].
  unfold mbind, IO_bind.
  destruct (await_step version s path w) as [[[]|e] w1]; [|done]. apply IH.
Qed.

(** The walk of [get_store] awaits exactly the actions of the eligible
    entries, in declaration order. *)
Lemma apply_upgrades_pending self db_version w :
  apply_upgrades self db_version w =
    await_all (db_path self) (pending db_version) w.
Proof.
  unfold apply_upgrades, pending. revert w.
  induction upgrades as [|[version steps] l IH]; intros w; simpl; [done|].
  unfold eligible at 1. simpl.
  destruct (Version.geb current_version version
            && Version.gtb version db_version); simpl.
  - rewrite await_all_app. unfold mbind, IO_bind. rewrite await_all_tagged.
    destruct (for_each steps _ w) as [[[]|e] w1]; [|done]. apply IH.
  - unfold mbind, IO_bind, mret, IO_ret. apply IH.
Qed.



Lemma called_failing (pre : list (Version.t * Step)) v (s : Step) post
    db db1 e db2 :
  run_steps pre.*2 db = (Ok tt, db1) ->
  s db1 = (Raise e, db2) ->
  called (pre ++ (v, s) :: post) db = pre ++ [(v, s)]
  /\ run_steps (pre ++ (v, s) :: post).*2 db = (Raise e, db2).
Proof.
  revert db. induction pre as [|[v' s'] pre IH]; intros db; simpl.
  - intros [= <-] Hs. by rewrite Hs.
  - destruct (s' db) as [[[]|e'] db'] eqn:E; [|done].
    intros Hpre Hs. destruct (IH _ Hpre Hs) as [H1 H2].
    split; [by rewrite H1 | exact H2].
Qed.

Lemma run_steps_keeps_header l db :
  Forall keeps_header l ->
  user_version (run_steps l db).2 = user_version db.
Proof.
  revert db. induction l as [|s l IH]; intros db Hl; simpl; [done|].
  apply Forall_cons in Hl as [Hs Hl]. specialize (Hs db).
  destruct (s db) as [[[]|e] db']; simpl in *; [|done].
  by rewrite IH.
Qed.

(** Awaiting a list of actions on an existing file: the file goes through
    [run_steps], the actions that got awaited are logged. *)
Lemma await_all_existing path l w db :
  files w !! path = Some db ->
  await_all path l w =
    ((run_steps l.*2 db).1,
     mkWorld (_store w) (dirs w)
       (<[path := (run_steps l.*2 db).2]> (files w))
       (awaited w ++ called l db)).
Proof.
  revert w db. unfold await_all.
  induction l as [|[v s] l IH]; intros w db H; simpl.
  - rewrite (insert_id _ _ _ H), app_nil_r. by destruct w.
  - unfold mbind, IO_bind, await_step. rewrite H. simpl.
    destruct (s db) as [[[]|e] db'] eqn:E; simpl; [|done].
    erewrite IH; [|apply lookup_insert_eq]. simpl.
    by rewrite insert_insert_eq, <- app_assoc.
Qed.

(** ** Opening the store *)

Lemma get_store_cached w store :
  _store w = Some store -> get_store w = (Ok store, w).
Proof.
  intros H. unfold get_store, mbind, IO_bind, read_store. by rewrite H.
Qed.

(** The upgrade branch of [get_store], in full: the file goes through the
    pending actions; it is stamped, and the store cached, only when they
    all returned. *)
Lemma get_store_upgrade w db :
  _store w = None ->
  files w !! store_db_path = Some db ->
  let l := pending (int_to_semantic_version (user_version db)) in
  let world st f :=
    mkWorld st ({[OTERM_DATA_DIR]} ∪ dirs w) (<[store_db_path := f]> (files w))
      (awaited w ++ called l db) in
  get_store w =
    match run_steps l.*2 db with
    | (Raise e, db1) => (Raise e, world None db1)
    | (Ok _, db1) =>
        match semantic_version_to_int current_version with
        | Ok n =>
            (Ok (mkStore store_db_path),
             world (Some (mkStore store_db_path)) (pragma_set_user_version n db1))
        | Raise e => (Raise e, world None db1)
        end
    end.
Proof.
  intros Hs Hf. simpl.
  unfold get_store, mbind, IO_bind, read_store, mkdir, path_exists.
  rewrite Hs. simpl. fold store_db_path. rewrite Hf.
  rewrite bool_decide_true by eauto. simpl.
  erewrite get_user_version_existing by (simpl; exact Hf).
  rewrite apply_upgrades_pending. simpl.
  erewrite await_all_existing by (simpl; exact Hf). simpl.
  destruct (run_steps _ db) as [[[]|e] db1] eqn:Hrun; simpl; [|by rewrite Hs].
  destruct (semantic_version_to_int current_version) as [n|e] eqn:Hn.
  - erewrite set_user_version_existing;
      [|simpl; apply lookup_insert_eq|exact Hn].
    simpl. unfold write_store, set_store, set_files, mret, IO_ret. simpl.
    by rewrite insert_insert_eq.
  - erewrite set_user_version_raises;
      [|simpl; apply lookup_insert_eq|exact Hn].
    by rewrite Hs.
Qed.

Lemma elem_of_pending db_version version step :
  (version, step) ∈ pending db_version ↔
  ∃ steps, (version, steps) ∈ upgrades ∧ step ∈ steps
           ∧ Version.geb current_version version = true
           ∧ Version.gtb version db_version = true.
Proof.
  unfold pending. rewrite list_elem_of_In, in_flat_map. split.
  - intros ([v steps] & [Hin He]%filter_In & Hs). simpl in Hs.
    apply list_elem_of_In, list_elem_of_fmap in Hs as (s & [= -> ->] & Hs).
    unfold eligible in He. simpl in He. apply andb_true_iff in He as [??].
    exists steps. by rewrite list_elem_of_In.
  - intros (steps & Hin & Hs & Hge & Hgt). exists (version, steps). split.
    + apply filter_In. split; [by apply list_elem_of_In|].
      unfold eligible. simpl. by rewrite Hge, Hgt.
    + simpl. apply list_elem_of_In, list_elem_of_fmap. eauto.
Qed.

(** A database stamped with the current version has nothing pending. *)
Lemma pending_current : pending current_version = [].
Proof.
  unfold pending. induction upgrades as [|[v steps] l IH]; simpl; [done|].
  unfold eligible at 1. simpl.
  destruct (Version.geb current_version v) eqn:E; simpl; [|done].
  by rewrite (geb_not_gtb _ _ E).
Qed.

Lemma pending_keeps_header db_version :
  (∀ version steps, (version, steps) ∈ upgrades → Forall keeps_header steps) ->
  Forall keeps_header (pending db_version).*2.
Proof.
  intros H. apply Forall_forall. intros s Hs.
  apply list_elem_of_fmap in Hs as ([v s'] & -> & Hs). simpl.
  apply elem_of_pending in Hs as (steps & Hin & Hs & _).
  specialize (H _ _ Hin). rewrite Forall_forall in H. by apply H.
Qed.


(** C2. On the upgrade path, once the actions of the eligible entries have
    all returned (there may be none), get_store stamps the header with the
    encoding of the version of the running application, whatever was
    applied, and returns the store. *)
Theorem get_store_upgrade_stamps_current_version
    (w : World) (db db1 : Database) :
  _store w = None ->
  files w !! store_db_path = Some db ->
  Version.representable current_version ->
  run_steps (pending (int_to_semantic_version (user_version db))).*2 db
    = (Ok tt, db1) ->
  ∃ n w',
    semantic_version_to_int current_version = Ok n
    ∧ get_store w = (Ok (mkStore store_db_path), w')
    ∧ files w' !! store_db_path = Some (mkDatabase n (chat db1) (message db1))
    ∧ int_to_semantic_version n = current_version
    ∧ _store w' = Some (mkStore store_db_path).
Proof.
  intros Hs Hf Hv Hrun.
  pose proof (get_store_upgrade w db Hs Hf) as Hg. cbv zeta in Hg.
  rewrite Hrun in Hg.
  pose proof (semantic_version_to_int_representable _ Hv) as Hn.
  rewrite Hn in Hg. eexists _, _. split; [exact Hn|]. split; [exact Hg|].
  simpl. rewrite lookup_insert_eq. unfold pragma_set_user_version.
  rewrite (atoi32_encoded _ _ Hn). split; [done|]. split; [|done].
  by apply decode_encode.
Qed.

(** An up-to-date database is re-stamped too, and nothing else changes in
    it. *)
Lemma get_store_up_to_date w db n :
  _store w = None ->
  files w !! store_db_path = Some db ->
  semantic_version_to_int current_version = Ok n ->
  user_version db = n ->
  ∃ w', get_store w = (Ok (mkStore store_db_path), w')
        ∧ files w' !! store_db_path = Some db
        ∧ awaited w' = awaited w.
Proof.
  intros Hs Hf Hn Hu.
  pose proof (get_store_upgrade w db Hs Hf) as Hg. cbv zeta in Hg.
  rewrite Hu, (decode_encode _ _ Hn), pending_current, Hn in Hg. cbv zeta in Hg.
  eexists. split; [exact Hg|]. simpl. rewrite lookup_insert_eq, app_nil_r.
  split; [|done]. unfold pragma_set_user_version.
  rewrite (atoi32_encoded _ _ Hn), <- Hu. by destruct db.
Qed.

(** C3. If an action of an eligible entry raises during the upgrade path,
    the exception propagates out of get_store, no store is cached, and the
    file is left as the actions left it, without a new stamp: with actions
    that do not write the header, the header keeps its value from before the
    migration, so the same actions are pending on the next open, which
    runs them again from the first. *)
Theorem get_store_failed_migration_is_retried
    (w : World) (db db1 db2 : Database)
    (pre post : list (Version.t * Step))
    (version : Version.t) (step : Step) (e : Exception) :
  _store w = None ->
  files w !! store_db_path = Some db ->
  (∀ version steps, (version, steps) ∈ upgrades → Forall keeps_header steps) ->
  pending (int_to_semantic_version (user_version db))
    = pre ++ (version, step) :: post ->
  run_steps pre.*2 db = (Ok tt, db1) ->
  step db1 = (Raise e, db2) ->
  ∃ w',
    get_store w = (Raise e, w')
    ∧ _store w' = None
    ∧ files w' !! store_db_path = Some db2
    ∧ user_version db2 = user_version db
    ∧ awaited w' = awaited w ++ pre ++ [(version, step)]
    ∧ pending (int_to_semantic_version (user_version db2))
        = pre ++ (version, step) :: post
    ∧ awaited (get_store w').2
        = awaited w' ++ called (pre ++ (version, step) :: post) db2.
Proof.
  intros Hs Hf Hkeep Hpend Hpre Hstep.
  pose proof (get_store_upgrade w db Hs Hf) as Hg. cbv zeta in Hg.
  destruct (called_failing pre version step post db db1 e db2 Hpre Hstep)
    as [Hcalled Hrun].
  rewrite Hpend, Hrun, Hcalled in Hg.
  assert (Hu : user_version db2 = user_version db).
  { pose proof (run_steps_keeps_header _ db
      (pending_keeps_header (int_to_semantic_version (user_version db)) Hkeep))
      as Hk.
    by rewrite Hpend, Hrun in Hk. }
  eexists. split; [exact Hg|]. simpl.
  rewrite lookup_insert_eq, Hu, Hpend.
  do 5 (split; [done|]).
  match goal with |- context [get_store ?w'] =>
    pose proof (get_store_upgrade w' db2 eq_refl) as Hg2 end.
  cbv zeta in Hg2; simpl files in Hg2. rewrite lookup_insert_eq, Hu, Hpend in Hg2.
  rewrite Hg2 by done.
  destruct (run_steps _ db2) as [[[]|e'] db3]; [|done].
  by destruct (semantic_version_to_int current_version).
Qed.

(** C4. Opening the store when the database file does not exist creates the
    chat and message tables, both empty, stamps the header with the encoding
    of the version of the running application, and applies no migration
    entry. *)
Theorem get_store_bootstrap (w : World) :
  _store w = None ->
  files w !! store_db_path = None ->
  Version.representable current_version ->
  ∃ n w',
    semantic_version_to_int current_version = Ok n
    ∧ get_store w = (Ok (mkStore store_db_path), w')
    ∧ files w' !! store_db_path
        = Some (mkDatabase n (Some empty_table) (Some empty_table))
    ∧ int_to_semantic_version n = current_version
    ∧ awaited w' = awaited w
    ∧ _store w' = Some (mkStore store_db_path).
Proof.
  intros Hs Hf Hv.
  pose proof (semantic_version_to_int_representable _ Hv) as Hn.
  eexists _, _. split; [exact Hn|].
  unfold get_store, mbind, IO_bind, read_store, mkdir, path_exists.
  rewrite Hs. simpl. fold store_db_path. rewrite Hf.
  rewrite bool_decide_false by (intros [? [=]]). simpl. rewrite Hf.
  erewrite execute_existing by (simpl; apply lookup_insert_eq). simpl.
  erewrite set_user_version_existing;
    [|simpl; apply lookup_insert_eq|exact Hn].
  simpl. split; [reflexivity|]. simpl.
  rewrite lookup_insert_eq. unfold pragma_set_user_version.
  rewrite (atoi32_encoded _ _ Hn). simpl.
  split; [done|]. split; [by apply decode_encode|done].
Qed.

(** ** Rows and statements *)

Lemma bind_int_Ok n m : bind_int n = Ok m -> m = n ∧ MIN_ROWID <= n <= MAX_ROWID.
Proof.
  unfold bind_int.
  destruct (Z.leb_spec MIN_ROWID n), (Z.leb_spec n MAX_ROWID); simpl;
    intros [=]; subst; lia.
Qed.

Lemma bind_int_in_range n : MIN_ROWID <= n <= MAX_ROWID -> bind_int n = Ok n.
Proof.
  intros [??]. unfold bind_int.
  destruct (Z.leb_spec MIN_ROWID n), (Z.leb_spec n MAX_ROWID); simpl;
    (done || lia).
Qed.

Lemma bind_optional_int_Ok o o' :
  bind_optional_int o = Ok o' ->
  o' = o ∧ ∀ n, o = Some n → MIN_ROWID <= n <= MAX_ROWID.
Proof.
  destruct o as [n|]; simpl.
  - destruct (bind_int n) as [m|e] eqn:E; [|done].
    apply bind_int_Ok in E as [-> ?]. intros [= <-]. split; [done|].
    by intros ? [= <-].
  - intros [= <-]. split; [done|]. by intros ? [=].
Qed.

Lemma largest_rowid_nonneg {R} (m : gmap Z R) : 0 <= largest_rowid m.
Proof.
  unfold largest_rowid.
  apply (map_fold_weak_ind (λ b _, 0 <= b)); [done|].
  intros k r m' b _ Hb. lia.
Qed.

Lemma new_rowid_Ok {R} (t : Table R) i :
  new_rowid t = Ok i -> MIN_ROWID <= i <= MAX_ROWID.
Proof.
  unfold new_rowid. pose proof (largest_rowid_nonneg (rows t)).
  destruct (Z.leb_spec MAX_ROWID (Z.max (largest_rowid (rows t)) (seq t)));
    [done|].
  intros [= <-]. unfold MIN_ROWID, MAX_ROWID in *. lia.
Qed.

(** [INSERT OR REPLACE] leaves the row it was given under the key it
    returns. *)
Lemma insert_or_replace_Ok {R} (id : option Z) (r : R) t i t' :
  insert_or_replace id r t = Ok (i, t') ->
  rows t' = <[i := r]> (rows t)
  ∧ (∀ n, id = Some n → i = n)
  ∧ (id = None → MIN_ROWID <= i <= MAX_ROWID).
Proof.
  unfold insert_or_replace. destruct id as [n|].
  - intros [= <- <-]. simpl. split; [done|]. split; [|done].
    by intros ? [= <-].
  - destruct (new_rowid t) as [j|e] eqn:E; [|done].
    intros [= <- <-]. simpl. split; [done|]. split; [done|].
    intros _. by apply new_rowid_Ok in E.
Qed.

Lemma elem_of_scan {R} (m : gmap Z R) k r :
  (k, r) ∈ scan m ↔ m !! k = Some r.
Proof.
  unfold scan. rewrite merge_sort_Permutation. apply elem_of_map_to_list.
Qed.

Lemma comprehension_Ok {A B} (f : A → Result B) l ys :
  comprehension f l = Ok ys -> Forall2 (λ x y, f x = Ok y) l ys.
Proof.
  revert ys. induction l as [|x l IH]; intros ys; simpl.
  - intros [= <-]. constructor.
  - destruct (f x) as [y|e] eqn:E; [|done].
    destruct (comprehension f l) as [ys'|e]; [|done].
    intros [= <-]. constructor; [done|]. by apply IH.
Qed.

Lemma comprehension_is_Ok {A B} (f : A → Result B) l :
  is_Ok (comprehension f l) = true ↔ Forall (λ x, is_Ok (f x) = true) l.
Proof.
  induction l as [|x l IH]; simpl; [by split; [constructor|]|].
  rewrite Forall_cons, <- IH.
  destruct (f x) as [y|e]; simpl; [|by split; [|intros [? _]]].
  destruct (comprehension f l); simpl; by split; [|intros [_ ?]].
Qed.

Lemma Author_call_is_Ok value :
  is_Ok (Author_call value) = true ↔ valid_author value.
Proof.
  unfold Author_call, valid_author.
  destruct (find _ Author_members) as [m|] eqn:E; simpl.
  - apply find_some in E as [Hin Hv]. apply bool_decide_eq_true in Hv.
    split; [|done]. intros _. exists m. by rewrite list_elem_of_In.
  - split; [done|]. intros (m & Hin & Hv).
    apply list_elem_of_In in Hin.
    pose proof (find_none _ _ E m Hin) as Hn. simpl in Hn.
    by rewrite bool_decide_true in Hn.
Qed.

Lemma Author_call_Ok value m :
  Author_call value = Ok m -> m ∈ Author_members ∧ Author_value m = value.
Proof.
  unfold Author_call.
  destruct (find _ Author_members) as [m'|] eqn:E; [|done].
  intros [= <-]. apply find_some in E as [Hin Hv].
  apply bool_decide_eq_true in Hv. by rewrite list_elem_of_In.
Qed.

(** ** Chats and messages *)



(** C9. edit_chat(id, ...) changes nothing but the chat row with the given
    id, of which it sets the name, system, format, parameters, keep_alive
    and tools columns: the row stays under its id with its model, every
    other chat row, the message table, the header and every other file are
    as before. *)
Theorem edit_chat_frame
    (self : Store) (id : Z) (name : string) (system : option string)
    (format : string) (parameters : Json) (keep_alive : Z) (tools : Json)
    (w : World) (db : Database) (t : Table Chat.row) :
  files w !! db_path self = Some db ->
  chat db = Some t ->
  let r := (edit_chat self id name system format parameters keep_alive tools w).1 in
  let w' := (edit_chat self id name system format parameters keep_alive tools w).2 in
  ∃ t',
    files w' !! db_path self
      = Some (mkDatabase (user_version db) (Some t') (message db))
    ∧ (∀ path, path ≠ db_path self → files w' !! path = files w !! path)
    ∧ seq t' = seq t
    ∧ (∀ j, j ≠ id → rows t' !! j = rows t !! j)
    ∧ Chat.model <$> rows t' !! id = Chat.model <$> rows t !! id
    ∧ (is_Ok r = true →
       ∃ p tl, json_dumps parameters = Ok p ∧ json_dumps tools = Ok tl
               ∧ rows t' !! id
                 = edited name system format p keep_alive tl <$> rows t !! id)
    ∧ (is_Ok r = false → t' = t).
Proof.
  intros Hf Hc. simpl.
  assert (Hsame : ∃ t', files w !! db_path self
            = Some (mkDatabase (user_version db) (Some t') (message db))
          ∧ (∀ path, path ≠ db_path self → files w !! path = files w !! path)
          ∧ seq t' = seq t
          ∧ (∀ j, j ≠ id → rows t' !! j = rows t !! j)
          ∧ Chat.model <$> rows t' !! id = Chat.model <$> rows t !! id
          ∧ t' = t).
  { exists t. rewrite Hf, <- Hc. by destruct db. }
  unfold edit_chat, mbind, IO_bind, eval.
  rewrite (connect_existing _ _ _ Hf).
  destruct (json_dumps parameters) as [p|e]; simpl;
    [|destruct Hsame as (t' & ? & ? & ? & ? & ? & ?); exists t'; by eauto 10].
  destruct (json_dumps tools) as [tl|e]; simpl;
    [|destruct Hsame as (t' & ? & ? & ? & ? & ? & ?); exists t'; by eauto 10].
  destruct (bind_int id) as [id'|e] eqn:Hid; simpl;
    [|destruct Hsame as (t' & ? & ? & ? & ? & ? & ?); exists t'; by eauto 10].
  apply bind_int_Ok in Hid as [-> _].
  destruct (bind_int keep_alive) as [k|e] eqn:Hk; simpl;
    [|destruct Hsame as (t' & ? & ? & ? & ? & ? & ?); exists t'; by eauto 10].
  apply bind_int_Ok in Hk as [-> _].
  rewrite (execute_existing _ _ _ _ _ Hf).
  unfold sql_update_chat. rewrite Hc. simpl.
  eexists. split; [apply lookup_insert_eq|].
  split; [by intros path Hne; apply lookup_insert_ne|].
  simpl. split; [done|].
  split; [by intros j Hne; apply lookup_alter_ne|].
  rewrite lookup_alter_eq.
  split; [by destruct (rows t !! id)|].
  split; [|done]. intros _. by exists p, tl.
Qed.

(** [delete_chat] on an open store: the chat row goes; the messages are
    kept, whatever chat they reference, since the connection never turned
    foreign-key enforcement on. *)
Lemma delete_chat_existing self id w db t :
  files w !! db_path self = Some db ->
  chat db = Some t ->
  MIN_ROWID <= id <= MAX_ROWID ->
  delete_chat self id w =
    (Ok tt,
     set_files
       (<[db_path self :=
            mkDatabase (user_version db)
              (Some (mkTable (delete id (rows t)) (seq t))) (message db)]>
          (files w)) w).
Proof.
  intros Hf Hc Hid. unfold delete_chat, mbind, IO_bind, eval.
  rewrite (connect_existing _ _ _ Hf), (bind_int_in_range _ Hid).
  rewrite (execute_existing _ _ _ _ _ Hf).
  unfold sql_delete_chat. by rewrite Hc.
Qed.

(** The statement itself does cascade on a connection that enforces foreign
    keys. *)
Lemma sql_delete_chat_cascades path id db t m k r :
  chat db = Some t ->
  message db = Some m ->
  is_Some (rows t !! id) ->
  rows m !! k = Some r ->
  Message.chat_id r = id ->
  ∃ m', message (sql_delete_chat id (mkConnection path true) db).2 = Some m'
        ∧ rows m' !! k = None.
Proof.
  intros Hc Hm Hid Hk Hr. unfold sql_delete_chat. rewrite Hc. simpl.
  rewrite bool_decide_true by done. simpl. rewrite Hm. simpl.
  eexists. split; [done|]. simpl.
  apply map_lookup_filter_None. right. intros r' Hr'. simpl.
  rewrite Hk in Hr'. injection Hr' as <-. by intros [].
Qed.

(** C10. get_messages(chat_id) converts the author text of every row it
    selects with the Author constructor: on an open store it returns if and
    only if every message row of that chat has an author text that is the
    value of a member of Author, and what it returns then has an entry for
    every such row; otherwise it raises. *)
Theorem get_messages_returns_iff_authors_valid
    (self : Store) (chat_id : Z) (w : World) (db : Database)
    (t : Table Message.row) :
  files w !! db_path self = Some db ->
  message db = Some t ->
  MIN_ROWID <= chat_id <= MAX_ROWID ->
  let r := (get_messages self chat_id w).1 in
  (is_Ok r = true ↔
   ∀ id row, rows t !! id = Some row → Message.chat_id row = chat_id →
             valid_author (Message.author row))
  ∧ (∀ messages, r = Ok messages →
     ∀ id row, rows t !! id = Some row → Message.chat_id row = chat_id →
     ∃ author, (id, author, Message.text row) ∈ messages
               ∧ Author_value author = Message.author row)
  ∧ (is_Ok r = false ↔
     ∃ id row, rows t !! id = Some row ∧ Message.chat_id row = chat_id
               ∧ ¬ valid_author (Message.author row)).
Proof.
  intros Hf Hm Hid. simpl.
  unfold get_messages, mbind, IO_bind, eval.
  rewrite (connect_existing _ _ _ Hf), (bind_int_in_range _ Hid).
  rewrite (execute_existing _ _ _ _ _ Hf).
  unfold sql_select_messages. rewrite Hm. simpl.
  set (sel := filter _ (scan (rows t))).
  assert (Hsel : ∀ id row, (id, row) ∈ sel ↔
            rows t !! id = Some row ∧ Message.chat_id row = chat_id).
  { intros id row. unfold sel. rewrite list_elem_of_filter, elem_of_scan.
    simpl. split; intros [??]; done. }
  assert (Hiff : is_Ok (comprehension message_tuple
                   ((λ kr : Z * Message.row,
                       (kr.1, Message.author kr.2, Message.text kr.2)) <$> sel))
                 = true ↔
            ∀ id row, rows t !! id = Some row → Message.chat_id row = chat_id →
                      valid_author (Message.author row)).
  { rewrite comprehension_is_Ok, Forall_fmap, Forall_forall. split.
    - intros H id row Hrow Hcid.
      specialize (H (id, row) (proj2 (Hsel id row) (conj Hrow Hcid))).
      simpl in H. apply Author_call_is_Ok.
      unfold mbind, Result_bind in H.
      by destruct (Author_call (Message.author row)).
    - intros H [id row] [Hrow Hcid]%Hsel. simpl.
      specialize (H id row Hrow Hcid). apply Author_call_is_Ok in H.
      unfold mbind, Result_bind.
      by destruct (Author_call (Message.author row)). }
  split; [exact Hiff|]. split.
  - intros messages Hok id row Hrow Hcid.
    apply comprehension_Ok in Hok.
    assert (Hin : (id, Message.author row, Message.text row)
                  ∈ (λ kr : Z * Message.row,
                       (kr.1, Message.author kr.2, Message.text kr.2)) <$> sel).
    { apply list_elem_of_fmap. exists (id, row). split; [done|].
      by apply Hsel. }
    apply list_elem_of_lookup in Hin as [n Hn].
    destruct (Forall2_lookup_l _ _ _ _ _ Hok Hn) as (y & Hy & Hconv).
    simpl in Hconv. unfold mbind, Result_bind in Hconv.
    destruct (Author_call (Message.author row)) as [a|e] eqn:Ha; [|done].
    injection Hconv as <-. exists a. split.
    + apply list_elem_of_lookup. eauto.
    + by apply Author_call_Ok in Ha as [_ ?].
  - rewrite <- not_true_iff_false, Hiff. split.
    + intros Hnot.
      destruct (decide (Exists (λ kr : Z * Message.row,
                  ¬ is_Ok (Author_call (Message.author kr.2)) = true) sel))
        as [Hex|Hex].
      * apply Exists_exists in Hex as ([id row] & Hin & Hbad).
        apply Hsel in Hin as [??]. exists id, row.
        by rewrite <- Author_call_is_Ok.
      * exfalso. apply Hnot. intros id row Hrow Hcid.
        apply Author_call_is_Ok.
        destruct (is_Ok (Author_call (Message.author row))) eqn:E; [done|].
        exfalso. apply Hex, Exists_exists. exists (id, row).
        split; [by apply Hsel|]. simpl. by rewrite E.
    + intros (id & row & Hrow & Hcid & Hbad) H. by apply Hbad, (H id row).
Qed.

(** ** Further properties: reading an open store *)

Lemma database_eta db :
  mkDatabase (user_version db) (chat db) (message db) = db.
Proof. by destruct db. Qed.

Lemma table_eta {R} (t : Table R) : mkTable (rows t) (seq t) = t.
Proof. by destruct t. Qed.

Lemma write_back p db w :
  files w !! p = Some db -> set_files (<[p := db]> (files w)) w = w.
Proof. intros H. by rewrite (insert_id _ _ _ H), set_files_same. Qed.

Lemma get_chat_existing self id w db t :
  files w !! db_path self = Some db ->
  chat db = Some t ->
  MIN_ROWID <= id <= MAX_ROWID ->
  get_chat self id w = (fetched id (rows t !! id), w).
Proof.
  intros Hf Hc Hid. unfold get_chat, mbind, IO_bind, eval.
  rewrite (connect_existing _ _ _ Hf), (bind_int_in_range _ Hid).
  rewrite (execute_existing _ _ _ _ _ Hf).
  unfold sql_select_chat. rewrite Hc. simpl. rewrite (write_back _ _ _ Hf).
  unfold fetched. destruct (rows t !! id) as [r|]; simpl; [|done].
  unfold mbind, Result_bind, mret, IO_ret, Result_ret.
  destruct (json_loads_column (Chat.parameters r)); [|done].
  by destruct (json_loads_column (Chat.tools r)).
Qed.

Lemma get_chats_existing self w db t :
  files w !! db_path self = Some db ->
  chat db = Some t ->
  get_chats self w = (comprehension chat_tuple (scan (rows t)), w).
Proof.
  intros Hf Hc. unfold get_chats, mbind, IO_bind, eval.
  rewrite (connect_existing _ _ _ Hf), (execute_existing _ _ _ _ _ Hf).
  unfold sql_select_chats. rewrite Hc. simpl. by rewrite (write_back _ _ _ Hf).
Qed.

Lemma get_messages_existing self chat_id w db t :
  files w !! db_path self = Some db ->
  message db = Some t ->
  MIN_ROWID <= chat_id <= MAX_ROWID ->
  get_messages self chat_id w
    = (comprehension message_tuple (selected chat_id t), w).
Proof.
  intros Hf Hm Hid. unfold get_messages, mbind, IO_bind, eval.
  rewrite (connect_existing _ _ _ Hf), (bind_int_in_range _ Hid).
  rewrite (execute_existing _ _ _ _ _ Hf).
  unfold sql_select_messages. rewrite Hm. simpl.
  by rewrite (write_back _ _ _ Hf).
Qed.

Lemma elem_of_selected chat_id t id author text :
  (id, author, text) ∈ selected chat_id t ↔
  ∃ row, rows t !! id = Some row ∧ Message.chat_id row = chat_id
         ∧ Message.author row = author ∧ Message.text row = text.
Proof.
  unfold selected. rewrite list_elem_of_fmap. split.
  - intros ([k row] & [= -> -> ->] & Hin).
    apply list_elem_of_filter in Hin as [Hc Hin]. apply elem_of_scan in Hin.
    by exists row.
  - intros (row & Hrow & Hc & <- & <-). exists (id, row). split; [done|].
    apply list_elem_of_filter. split; [done|]. by apply elem_of_scan.
Qed.

Lemma get_chat_Some self id w tuple w0 :
  get_chat self id w = (Ok (Some tuple), w0) ->
  ∃ db t r,
    files w !! db_path self = Some db ∧ chat db = Some t
    ∧ MIN_ROWID <= id <= MAX_ROWID
    ∧ rows t !! id = Some r ∧ chat_tuple (id, r) = Ok tuple ∧ w0 = w.
Proof.
  intros H.
  destruct (files w !! db_path self) as [db|] eqn:Hf; cycle 1.
  { revert H. unfold get_chat, mbind, IO_bind, eval, connect, execute.
    rewrite Hf. simpl. destruct (bind_int id); [|done].
    simpl. rewrite lookup_insert_eq. done. }
  destruct (bind_int id) as [i|e] eqn:Hid; cycle 1.
  { revert H. unfold get_chat, mbind, IO_bind, eval.
    by rewrite (connect_existing _ _ _ Hf), Hid. }
  apply bind_int_Ok in Hid as [-> Hid].
  destruct (chat db) as [t|] eqn:Hc; cycle 1.
  { revert H. unfold get_chat, mbind, IO_bind, eval.
    rewrite (connect_existing _ _ _ Hf), (bind_int_in_range _ Hid).
    rewrite (execute_existing _ _ _ _ _ Hf).
    unfold sql_select_chat. by rewrite Hc. }
  rewrite (get_chat_existing _ _ _ _ _ Hf Hc Hid) in H.
  injection H as Hr <-. exists db, t.
  destruct (rows t !! id) as [r|]; [|done]. exists r.
  repeat (split; [done|]). split; [|done].
  unfold fetched, mbind, Result_bind in Hr.
  destruct (chat_tuple (id, r)); [|done]. by injection Hr as ->.
Qed.

Lemma get_store_caches w store w' :
  get_store w = (Ok store, w') -> _store w' = Some store.
Proof.
  unfold get_store, mbind, IO_bind, read_store.
  destruct (_store w) as [cached|] eqn:Hs.
  - by intros [= <- <-].
  - simpl.
    match goal with
    | |- (let (_, _) := ?c in _) = _ → _ =>
        destruct c as [[[]|e] w1]
    end; [|done].
    unfold write_store, mret, IO_ret. by intros [= <- <-].
Qed.

(** X1. get_store is a singleton: once an open has returned, every later
    get_store returns the same store and changes nothing: no table is
    created, no upgrade action runs and the header is not stamped again. *)
Theorem get_store_again (w w' : World) (store : Store) :
  get_store w = (Ok store, w') ->
  get_store w' = (Ok store, w').
Proof. intros H%get_store_caches. by apply get_store_cached. Qed.

(** X2. The reading calls never change an existing database file, whether
    they return or raise: get_user_version, get_chat, get_chats and
    get_messages leave the process state as it was. *)
Theorem reads_change_nothing
    (self : Store) (id chat_id : Z) (w : World) (db : Database) :
  files w !! db_path self = Some db ->
  (get_user_version self w).2 = w
  ∧ (get_chat self id w).2 = w
  ∧ (get_chats self w).2 = w
  ∧ (get_messages self chat_id w).2 = w.
Proof.
  intros Hf. split; [by rewrite (get_user_version_existing _ _ _ Hf)|].
  split; [|split].
  - unfold get_chat, mbind, IO_bind, eval.
    rewrite (connect_existing _ _ _ Hf).
    destruct (bind_int id) as [i|e]; [|done].
    rewrite (execute_existing _ _ _ _ _ Hf). unfold sql_select_chat.
    destruct (chat db) as [t|]; simpl; rewrite (write_back _ _ _ Hf); [|done].
    destruct (rows t !! i) as [r|]; simpl; [|done].
    unfold mbind, Result_bind, mret, IO_ret, Result_ret.
    destruct (json_loads_column (Chat.parameters r)); [|done].
    by destruct (json_loads_column (Chat.tools r)).
  - unfold get_chats, mbind, IO_bind, eval.
    rewrite (connect_existing _ _ _ Hf), (execute_existing _ _ _ _ _ Hf).
    unfold sql_select_chats.
    by destruct (chat db); simpl; rewrite (write_back _ _ _ Hf).
  - unfold get_messages, mbind, IO_bind, eval.
    rewrite (connect_existing _ _ _ Hf).
    destruct (bind_int chat_id) as [i|e]; [|done].
    rewrite (execute_existing _ _ _ _ _ Hf). unfold sql_select_messages.
    by destruct (message db); simpl; rewrite (write_back _ _ _ Hf).
Qed.

(** X3. Fetching a chat by an id that has no row is not an error: get_chat
    returns None. *)
Theorem get_chat_absent
    (self : Store) (id : Z) (w : World) (db : Database)
    (t : Table Chat.row) :
  files w !! db_path self = Some db ->
  chat db = Some t ->
  MIN_ROWID <= id <= MAX_ROWID ->
  rows t !! id = None ->
  get_chat self id w = (Ok None, w).
Proof.
  intros Hf Hc Hid Hr. by rewrite (get_chat_existing _ _ _ _ _ Hf Hc Hid), Hr.
Qed.

(** X4. After delete_chat(id), get_chat(id) returns None, and get_chat of
    every other id returns what it returned before. *)
Theorem delete_chat_then_get_chat
    (self : Store) (id : Z) (w : World) (db : Database)
    (t : Table Chat.row) :
  files w !! db_path self = Some db ->
  chat db = Some t ->
  MIN_ROWID <= id <= MAX_ROWID ->
  let w' := (delete_chat self id w).2 in
  (delete_chat self id w).1 = Ok tt
  ∧ get_chat self id w' = (Ok None, w')
  ∧ ∀ other, MIN_ROWID <= other <= MAX_ROWID → other ≠ id →
             (get_chat self other w').1 = (get_chat self other w).1.
Proof.
  intros Hf Hc Hid. simpl.
  rewrite (delete_chat_existing _ _ _ _ _ Hf Hc Hid). simpl.
  split; [done|]. split.
  - erewrite get_chat_existing;
      [|simpl; apply lookup_insert_eq|reflexivity|done].
    simpl. by rewrite lookup_delete_eq.
  - intros other Hother Hne.
    erewrite get_chat_existing;
      [|simpl; apply lookup_insert_eq|reflexivity|done].
    rewrite (get_chat_existing _ _ _ _ _ Hf Hc Hother). simpl.
    by rewrite lookup_delete_ne.
Qed.

(** X5. Deleting a chat that does not exist is not an error and changes
    nothing. *)
Theorem delete_chat_absent
    (self : Store) (id : Z) (w : World) (db : Database)
    (t : Table Chat.row) :
  files w !! db_path self = Some db ->
  chat db = Some t ->
  MIN_ROWID <= id <= MAX_ROWID ->
  rows t !! id = None ->
  delete_chat self id w = (Ok tt, w).
Proof.
  intros Hf Hc Hid Hr.
  rewrite (delete_chat_existing _ _ _ _ _ Hf Hc Hid).
  rewrite (delete_id _ _ Hr), table_eta, <- Hc, database_eta.
  by rewrite (write_back _ _ _ Hf).
Qed.

(** X6. delete_chat never deletes a message: after delete_chat(id),
    get_messages returns for every chat, the deleted one included, what it
    returned before. *)
Theorem delete_chat_keeps_messages
    (self : Store) (id chat_id : Z) (w : World) (db : Database)
    (t : Table Chat.row) :
  files w !! db_path self = Some db ->
  chat db = Some t ->
  MIN_ROWID <= id <= MAX_ROWID ->
  (get_messages self chat_id (delete_chat self id w).2).1
    = (get_messages self chat_id w).1.
Proof.
  intros Hf Hc Hid.
  rewrite (delete_chat_existing _ _ _ _ _ Hf Hc Hid). simpl.
  unfold get_messages, mbind, IO_bind, eval.
  erewrite connect_existing by (simpl; apply lookup_insert_eq).
  rewrite (connect_existing _ _ _ Hf).
  destruct (bind_int chat_id) as [i|e]; [|done].
  erewrite execute_existing by (simpl; apply lookup_insert_eq).
  rewrite (execute_existing _ _ _ _ _ Hf).
  unfold sql_select_messages. simpl.
  by destruct (message db).
Qed.

(** ** Further properties: writing chats *)

Lemma alter_absent {R} (f : R → R) (m : gmap Z R) i :
  m !! i = None -> alter f i m = m.
Proof.
  intros H. apply map_eq. intros j. destruct (decide (j = i)) as [->|Hne].
  - by rewrite lookup_alter_eq, H.
  - by rewrite lookup_alter_ne.
Qed.

Lemma chat_tuple_Ok id r tuple :
  chat_tuple (id, r) = Ok tuple ->
  ∃ p tl, json_loads_column (Chat.parameters r) = Ok p
          ∧ json_loads_column (Chat.tools r) = Ok tl
          ∧ tuple = (id, Chat.name r, Chat.model r, Chat.system r,
                     Chat.format r, p, Chat.keep_alive r, tl).
Proof.
  unfold chat_tuple, mbind, Result_bind, mret, Result_ret.
  destruct (json_loads_column (Chat.parameters r)) as [p|]; [|done].
  destruct (json_loads_column (Chat.tools r)) as [tl|]; [|done].
  intros [= <-]. by exists p, tl.
Qed.

Lemma rename_chat_existing self id name w db t :
  files w !! db_path self = Some db ->
  chat db = Some t ->
  MIN_ROWID <= id <= MAX_ROWID ->
  rename_chat self id name w =
    (Ok tt,
     set_files
       (<[db_path self :=
            mkDatabase (user_version db)
              (Some (mkTable (alter (renamed name) id (rows t)) (seq t)))
              (message db)]> (files w)) w).
Proof.
  intros Hf Hc Hid. unfold rename_chat, mbind, IO_bind, eval.
  rewrite (connect_existing _ _ _ Hf), (bind_int_in_range _ Hid).
  rewrite (execute_existing _ _ _ _ _ Hf).
  unfold sql_update_chat_name. by rewrite Hc.
Qed.

Lemma edit_chat_existing self id name system format parameters keep_alive
    tools w db t p tl :
  files w !! db_path self = Some db ->
  chat db = Some t ->
  json_dumps parameters = Ok p ->
  json_dumps tools = Ok tl ->
  MIN_ROWID <= id <= MAX_ROWID ->
  MIN_ROWID <= keep_alive <= MAX_ROWID ->
  edit_chat self id name system format parameters keep_alive tools w =
    (Ok tt,
     set_files
       (<[db_path self :=
            mkDatabase (user_version db)
              (Some (mkTable
                       (alter (edited name system format p keep_alive tl) id
                          (rows t))
                       (seq t)))
              (message db)]> (files w)) w).
Proof.
  intros Hf Hc Hp Ht Hid Hk. unfold edit_chat, mbind, IO_bind, eval.
  rewrite (connect_existing _ _ _ Hf), Hp, Ht.
  rewrite (bind_int_in_range _ Hid), (bind_int_in_range _ Hk).
  rewrite (execute_existing _ _ _ _ _ Hf).
  unfold sql_update_chat. by rewrite Hc.
Qed.

Lemma edit_chat_returned self id name system format parameters keep_alive
    tools w db :
  files w !! db_path self = Some db ->
  (edit_chat self id name system format parameters keep_alive tools w).1
    = Ok tt ->
  ∃ p tl, json_dumps parameters = Ok p ∧ json_dumps tools = Ok tl
          ∧ MIN_ROWID <= id <= MAX_ROWID
          ∧ MIN_ROWID <= keep_alive <= MAX_ROWID.
Proof.
  intros Hf. unfold edit_chat, mbind, IO_bind, eval.
  rewrite (connect_existing _ _ _ Hf).
  destruct (json_dumps parameters) as [p|]; [|done].
  destruct (json_dumps tools) as [tl|]; [|done].
  destruct (bind_int id) as [i|] eqn:Hid; [|done].
  destruct (bind_int keep_alive) as [k|] eqn:Hk; [|done].
  apply bind_int_Ok in Hid as [_ ?]. apply bind_int_Ok in Hk as [_ ?].
  intros _. by exists p, tl.
Qed.

(** X7. rename_chat(id, name) changes the name and nothing else: a chat
    that get_chat returned is returned afterwards with the new name and all
    its other fields as before, and get_chat of every other id returns what
    it returned before. *)
Theorem rename_chat_then_get_chat
    (self : Store) (id : Z) (new_name : string) (w w0 : World)
    (id0 : Z) (name : option string) (model : string)
    (system format : option string) (parameters : Json)
    (keep_alive : option Z) (tools : Json) :
  get_chat self id w
    = (Ok (Some (id0, name, model, system, format, parameters, keep_alive,
                 tools)), w0) ->
  let w' := (rename_chat self id new_name w).2 in
  (rename_chat self id new_name w).1 = Ok tt
  ∧ get_chat self id w'
    = (Ok (Some (id, Some new_name, model, system, format, parameters,
                 keep_alive, tools)), w')
  ∧ ∀ other, MIN_ROWID <= other <= MAX_ROWID → other ≠ id →
             (get_chat self other w').1 = (get_chat self other w).1.
Proof.
  intros (db & t & r & Hf & Hc & Hid & Hr & Htuple & _)%get_chat_Some. simpl.
  apply chat_tuple_Ok in Htuple as (p & tl & Hp & Ht & [= _ -> -> -> -> -> -> ->]).
  rewrite (rename_chat_existing _ _ _ _ _ _ Hf Hc Hid). simpl.
  split; [done|]. split.
  - erewrite get_chat_existing;
      [|simpl; apply lookup_insert_eq|reflexivity|done].
    simpl. rewrite lookup_alter_eq, Hr. simpl.
    unfold mbind, Result_bind, mret, Result_ret. by rewrite Hp, Ht.
  - intros other Hother Hne.
    erewrite get_chat_existing;
      [|simpl; apply lookup_insert_eq|reflexivity|done].
    rewrite (get_chat_existing _ _ _ _ _ Hf Hc Hother). simpl.
    by rewrite lookup_alter_ne.
Qed.

(** X8. Renaming or editing a chat that does not exist is not reported:
    rename_chat and edit_chat return normally and change nothing. *)
Theorem update_of_absent_chat
    (self : Store) (id : Z) (name : string) (system : option string)
    (format : string) (parameters : Json) (keep_alive : Z) (tools : Json)
    (w : World) (db : Database) (t : Table Chat.row) :
  files w !! db_path self = Some db ->
  chat db = Some t ->
  MIN_ROWID <= id <= MAX_ROWID ->
  rows t !! id = None ->
  rename_chat self id name w = (Ok tt, w)
  ∧ (is_Ok (json_dumps parameters) = true →
     is_Ok (json_dumps tools) = true →
     MIN_ROWID <= keep_alive <= MAX_ROWID →
     edit_chat self id name system format parameters keep_alive tools w
       = (Ok tt, w)).
Proof.
  intros Hf Hc Hid Hr. split.
  - rewrite (rename_chat_existing _ _ _ _ _ _ Hf Hc Hid).
    rewrite (alter_absent _ _ _ Hr), table_eta, <- Hc, database_eta.
    by rewrite (write_back _ _ _ Hf).
  - intros Hp Ht Hk.
    destruct (json_dumps parameters) as [p|] eqn:Ep; [|done].
    destruct (json_dumps tools) as [tl|] eqn:Et; [|done].
    rewrite (edit_chat_existing _ _ _ _ _ _ _ _ _ _ _ _ _ Hf Hc Ep Et Hid Hk).
    rewrite (alter_absent _ _ _ Hr), table_eta, <- Hc, database_eta.
    by rewrite (write_back _ _ _ Hf).
Qed.

(** X9. After edit_chat has returned for a chat that get_chat returned,
    get_chat returns the given name, system, format, keep_alive and, when
    json.loads reads back what json.dumps wrote, the given parameters and
    tools; the model is the one the chat had. *)
Theorem edit_chat_then_get_chat
    (self : Store) (id : Z) (name : string) (system : option string)
    (format : string) (parameters : Json) (keep_alive : Z) (tools : Json)
    (w w0 : World) (id0 : Z) (name0 : option string) (model : string)
    (system0 format0 : option string) (parameters0 : Json)
    (keep_alive0 : option Z) (tools0 : Json) :
  (∀ s, json_dumps parameters = Ok s → json_loads s = Ok parameters) ->
  (∀ s, json_dumps tools = Ok s → json_loads s = Ok tools) ->
  get_chat self id w
    = (Ok (Some (id0, name0, model, system0, format0, parameters0,
                 keep_alive0, tools0)), w0) ->
  (edit_chat self id name system format parameters keep_alive tools w).1
    = Ok tt ->
  let w' :=
    (edit_chat self id name system format parameters keep_alive tools w).2 in
  get_chat self id w'
    = (Ok (Some (id, Some name, model, system, Some format, parameters,
                 Some keep_alive, tools)), w').
Proof.
  intros Hrp Hrt (db & t & r & Hf & Hc & Hid & Hr & Htuple & _)%get_chat_Some
    Hok. simpl.
  apply chat_tuple_Ok in Htuple as (p0 & tl0 & _ & _ & [= _ _ -> _ _ _ _ _]).
  destruct (edit_chat_returned _ _ _ _ _ _ _ _ _ _ Hf Hok)
    as (p & tl & Hp & Ht & _ & Hk).
  rewrite (edit_chat_existing _ _ _ _ _ _ _ _ _ _ _ _ _ Hf Hc Hp Ht Hid Hk).
  simpl.
  erewrite get_chat_existing;
    [|simpl; apply lookup_insert_eq|reflexivity|done].
  simpl. rewrite lookup_alter_eq, Hr. simpl.
  unfold mbind, Result_bind, mret, Result_ret.
  by rewrite (Hrp _ Hp), (Hrt _ Ht).
Qed.

Lemma largest_rowid_ge {R} (m : gmap Z R) k r :
  m !! k = Some r -> k <= largest_rowid m.
Proof.
  unfold largest_rowid. revert k r.
  apply (map_fold_weak_ind
           (λ b (m : gmap Z R), ∀ k r, m !! k = Some r → k <= b)).
  - intros k r. by rewrite lookup_empty.
  - intros i x m' b Hi IH k r Hk.
    destruct (decide (k = i)) as [->|Hne]; [lia|].
    rewrite lookup_insert_ne in Hk by done. specialize (IH _ _ Hk). lia.
Qed.

Lemma new_rowid_fresh {R} (t : Table R) i :
  new_rowid t = Ok i ->
  0 < i ∧ seq t < i ∧ ∀ k r, rows t !! k = Some r → k < i.
Proof.
  unfold new_rowid. pose proof (largest_rowid_nonneg (rows t)).
  destruct (Z.leb_spec MAX_ROWID (Z.max (largest_rowid (rows t)) (seq t)));
    [done|].
  intros [= <-]. split; [lia|]. split; [lia|].
  intros k r Hk%largest_rowid_ge. lia.
Qed.

(** What a successful [save_chat] did, with the table it left. *)
Lemma save_chat_inserted self id name model system format parameters
    keep_alive tools w i w' :
  save_chat self id name model system format parameters keep_alive tools w
    = (Ok i, w') ->
  ∃ db t t' row,
    files w !! db_path self = Some db
    ∧ chat db = Some t
    ∧ insert_or_replace id row t = Ok (i, t')
    ∧ w' = set_files
             (<[db_path self :=
                  mkDatabase (user_version db) (Some t') (message db)]>
                (files w)) w.
Proof.
  unfold save_chat, mbind, IO_bind, eval, connect, execute. simpl.
  destruct (json_dumps parameters) as [p|e];
    [|by destruct (files w !! db_path self)].
  destruct (json_dumps tools) as [tl|e];
    [|by destruct (files w !! db_path self)].
  destruct (bind_optional_int id) as [id'|e] eqn:Hid;
    [|by destruct (files w !! db_path self)].
  apply bind_optional_int_Ok in Hid as [-> _].
  destruct (bind_int keep_alive) as [k|e];
    [|by destruct (files w !! db_path self)].
  destruct (files w !! db_path self) as [db|] eqn:Hf; simpl.
  - rewrite Hf. unfold sql_insert_or_replace_chat.
    destruct (chat db) as [t|] eqn:Hc; [|done].
    destruct (insert_or_replace id _ t) as [[j t']|e] eqn:Hi; [|done].
    intros [= -> <-]. by eexists db, t, t', _.
  - rewrite lookup_insert_eq. done.
Qed.

(** X10. A chat saved without an id gets a new one: the id save_chat
    returns is positive, larger than the id of every chat in the table, and
    no other chat row changes. *)
Theorem save_chat_assigns_new_id
    (self : Store) (name model : string) (system : option string)
    (format : string) (parameters : Json) (keep_alive : Z) (tools : Json)
    (w w' : World) (i : Z) :
  save_chat self None name model system format parameters keep_alive tools w
    = (Ok i, w') ->
  0 < i
  ∧ ∃ db t t',
      files w !! db_path self = Some db
      ∧ chat db = Some t
      ∧ files w' !! db_path self
        = Some (mkDatabase (user_version db) (Some t') (message db))
      ∧ (∀ k r, rows t !! k = Some r → k < i)
      ∧ rows t !! i = None
      ∧ is_Some (rows t' !! i)
      ∧ (∀ k, k ≠ i → rows t' !! k = rows t !! k).
Proof.
  intros (db & t & t' & row & Hf & Hc & Hi & ->)%save_chat_inserted.
  unfold insert_or_replace in Hi.
  destruct (new_rowid t) as [j|] eqn:Hnew; [|done].
  injection Hi as -> <-.
  apply new_rowid_fresh in Hnew as (Hpos & _ & Hlt).
  split; [done|]. exists db, t, (mkTable (<[i := row]> (rows t)) i).
  repeat (split; [done|]). simpl.
  split; [apply lookup_insert_eq|]. split; [done|]. split; [|split].
  - destruct (rows t !! i) as [r|] eqn:E; [|done].
    specialize (Hlt _ _ E). lia.
  - rewrite lookup_insert_eq. by eexists.
  - intros k Hne. by rewrite lookup_insert_ne.
Qed.

(** X11. A chat saved with an id is stored under that id, which save_chat
    returns: the row of that id, if there was one, is replaced as a whole,
    model included, and no other chat row and no message changes. *)
Theorem save_chat_with_id
    (self : Store) (id : Z) (name model : string) (system : option string)
    (format : string) (parameters : Json) (keep_alive : Z) (tools : Json)
    (w : World) (db : Database) (t : Table Chat.row) (p tl : string) :
  files w !! db_path self = Some db ->
  chat db = Some t ->
  json_dumps parameters = Ok p ->
  json_dumps tools = Ok tl ->
  MIN_ROWID <= id <= MAX_ROWID ->
  MIN_ROWID <= keep_alive <= MAX_ROWID ->
  ∃ w' t',
    save_chat self (Some id) name model system format parameters keep_alive
      tools w = (Ok id, w')
    ∧ files w' !! db_path self
      = Some (mkDatabase (user_version db) (Some t') (message db))
    ∧ rows t' !! id
      = Some (Chat.mk (Some name) model system (Some format) (Some p)
                (Some keep_alive) (Some tl))
    ∧ (∀ k, k ≠ id → rows t' !! k = rows t !! k).
Proof.
  intros Hf Hc Hp Ht Hid Hk.
  unfold save_chat, mbind, IO_bind, eval.
  rewrite (connect_existing _ _ _ Hf), Hp, Ht. simpl.
  rewrite (bind_int_in_range _ Hid), (bind_int_in_range _ Hk).
  rewrite (execute_existing _ _ _ _ _ Hf).
  unfold sql_insert_or_replace_chat. rewrite Hc. simpl.
  eexists _, _. split; [reflexivity|]. simpl.
  split; [apply lookup_insert_eq|]. simpl.
  split; [apply lookup_insert_eq|].
  intros k Hne. by rewrite lookup_insert_ne.
Qed.

(** X12. save_chat never changes the header, the message table or another
    file, and when it raises it leaves the process state as it was. *)
Theorem save_chat_frame
    (self : Store) (id : option Z) (name model : string)
    (system : option string) (format : string) (parameters : Json)
    (keep_alive : Z) (tools : Json) (w : World) (db : Database) :
  files w !! db_path self = Some db ->
  let r :=
    (save_chat self id name model system format parameters keep_alive tools
       w).1 in
  let w' :=
    (save_chat self id name model system format parameters keep_alive tools
       w).2 in
  (∃ db', files w' !! db_path self = Some db'
          ∧ user_version db' = user_version db
          ∧ message db' = message db)
  ∧ (∀ path, path ≠ db_path self → files w' !! path = files w !! path)
  ∧ (is_Ok r = false → w' = w).
Proof.
  intros Hf. simpl.
  assert (Hsame : (∃ db', files w !! db_path self = Some db'
                          ∧ user_version db' = user_version db
                          ∧ message db' = message db)
                  ∧ (∀ path, path ≠ db_path self →
                             files w !! path = files w !! path)) by eauto.
  unfold save_chat, mbind, IO_bind, eval.
  rewrite (connect_existing _ _ _ Hf).
  destruct (json_dumps parameters) as [p|]; simpl;
    [|destruct Hsame as [HA HB]; split; [exact HA|split; [exact HB|done]]].
  destruct (json_dumps tools) as [tl|]; simpl; [|destruct Hsame as [HA HB]; split; [exact HA|split; [exact HB|done]]].
  destruct (bind_optional_int id) as [id'|]; simpl; [|destruct Hsame as [HA HB]; split; [exact HA|split; [exact HB|done]]].
  destruct (bind_int keep_alive) as [k|]; simpl; [|destruct Hsame as [HA HB]; split; [exact HA|split; [exact HB|done]]].
  rewrite (execute_existing _ _ _ _ _ Hf).
  unfold sql_insert_or_replace_chat.
  destruct (chat db) as [t|];
    [|cbn [fst snd]; rewrite (write_back _ _ _ Hf); simpl; destruct Hsame as [HA HB]; split; [exact HA|split; [exact HB|done]]].
  destruct (insert_or_replace id' _ t) as [[i t']|];
    [simpl|cbn [fst snd]; rewrite (write_back _ _ _ Hf); simpl; destruct Hsame as [HA HB]; split; [exact HA|split; [exact HB|done]]].
  split; [|split; [|done]].
  - eexists. split; [apply lookup_insert_eq|]. done.
  - intros path Hne. by rewrite lookup_insert_ne.
Qed.

(** X13. An id is not given twice: when a chat saved without an id got the
    id i and is then deleted, the next chat saved without an id gets an id
    larger than i. *)
Theorem save_chat_never_reuses_id
    (self : Store) (name1 model1 : string) (system1 : option string)
    (format1 : string) (parameters1 : Json) (keep_alive1 : Z)
    (tools1 : Json) (name2 model2 : string) (system2 : option string)
    (format2 : string) (parameters2 : Json) (keep_alive2 : Z)
    (tools2 : Json) (w w1 w2 w3 : World) (i j : Z) :
  save_chat self None name1 model1 system1 format1 parameters1 keep_alive1
    tools1 w = (Ok i, w1) ->
  delete_chat self i w1 = (Ok tt, w2) ->
  save_chat self None name2 model2 system2 format2 parameters2 keep_alive2
    tools2 w2 = (Ok j, w3) ->
  i < j.
Proof.
  intros (db & t & t1 & row & Hf & Hc & Hi & ->)%save_chat_inserted Hdel
    (db2 & t2 & t3 & row2 & Hf2 & Hc2 & Hj & _)%save_chat_inserted.
  unfold insert_or_replace in Hi, Hj.
  destruct (new_rowid t) as [i'|] eqn:Hnew; [|done].
  injection Hi as -> <-.
  assert (Hrange := new_rowid_Ok _ _ Hnew).
  erewrite delete_chat_existing in Hdel;
    [|simpl; apply lookup_insert_eq|reflexivity|done].
  injection Hdel as <-. simpl in Hf2. rewrite lookup_insert_eq in Hf2.
  injection Hf2 as <-. simpl in Hc2. injection Hc2 as <-.
  destruct (new_rowid _) as [j'|] eqn:Hnew2 in Hj; [|done].
  injection Hj as -> _.
  apply new_rowid_fresh in Hnew2 as (_ & Hseq & _). simpl in Hseq. done.
Qed.

(** ** Further properties: messages *)

Lemma comprehension_elem {A B} (f : A → Result B) l ys x :
  comprehension f l = Ok ys -> x ∈ l -> ∃ y, y ∈ ys ∧ f x = Ok y.
Proof.
  intros Hok%comprehension_Ok [n Hn]%list_elem_of_lookup.
  destruct (Forall2_lookup_l _ _ _ _ _ Hok Hn) as (y & Hy & Hf).
  exists y. split; [|done]. apply list_elem_of_lookup. eauto.
Qed.

Lemma comprehension_elem_r {A B} (f : A → Result B) l ys y :
  comprehension f l = Ok ys -> y ∈ ys -> ∃ x, x ∈ l ∧ f x = Ok y.
Proof.
  intros Hok%comprehension_Ok [n Hn]%list_elem_of_lookup.
  destruct (Forall2_lookup_r _ _ _ _ _ Hok Hn) as (x & Hx & Hf).
  exists x. split; [|done]. apply list_elem_of_lookup. eauto.
Qed.

Lemma comprehension_raises {A B} (f : A → Result B) l x :
  x ∈ l -> is_Ok (f x) = false -> is_Ok (comprehension f l) = false.
Proof.
  intros Hin Hx. apply not_true_iff_false. intros Hok.
  apply comprehension_is_Ok in Hok. rewrite Forall_forall in Hok.
  specialize (Hok x Hin). congruence.
Qed.

Lemma message_tuple_Ok id author text tuple :
  message_tuple (id, author, text) = Ok tuple ->
  ∃ a, Author_call author = Ok a ∧ tuple = (id, a, text).
Proof.
  unfold message_tuple, mbind, Result_bind, mret, Result_ret.
  destruct (Author_call author) as [a|]; [|done].
  intros [= <-]. by exists a.
Qed.

Lemma message_tuple_ids l ys :
  comprehension message_tuple l = Ok ys -> ys.*1.*1 = l.*1.*1.
Proof.
  revert ys. induction l as [|[[id author] text] l IH]; intros ys; simpl.
  - by intros [= <-].
  - unfold mbind, Result_bind, mret, Result_ret.
    destruct (Author_call author) as [a|]; [|done].
    destruct (comprehension message_tuple l) as [ys'|]; [|done].
    intros [= <-]. simpl. f_equal. by apply IH.
Qed.

(** What a successful [save_message] did. *)
Lemma save_message_inserted self id chat_id author text w i w' :
  save_message self id chat_id author text w = (Ok i, w') ->
  ∃ db t t',
    files w !! db_path self = Some db
    ∧ message db = Some t
    ∧ MIN_ROWID <= chat_id <= MAX_ROWID
    ∧ MIN_ROWID <= i <= MAX_ROWID
    ∧ rows t' = <[i := Message.mk chat_id author text]> (rows t)
    ∧ w' = set_files
             (<[db_path self :=
                  mkDatabase (user_version db) (chat db) (Some t')]>
                (files w)) w.
Proof.
  unfold save_message, mbind, IO_bind, eval, connect, execute. simpl.
  destruct (bind_optional_int id) as [id'|e] eqn:Hid;
    [|by destruct (files w !! db_path self)].
  apply bind_optional_int_Ok in Hid as [-> Hid].
  destruct (bind_int chat_id) as [c|e] eqn:Hc;
    [|by destruct (files w !! db_path self)].
  apply bind_int_Ok in Hc as [-> Hc].
  destruct (files w !! db_path self) as [db|] eqn:Hf; simpl.
  - rewrite Hf. unfold sql_insert_or_replace_message.
    destruct (message db) as [t|] eqn:Hm; [|done]. simpl.
    destruct (insert_or_replace id _ t) as [[j t']|e] eqn:Hi; [|done].
    intros [= -> <-].
    apply insert_or_replace_Ok in Hi as (Hrows & Hsome & Hnone).
    exists db, t, t'. repeat (split; [done|]). split; [|done].
    destruct id as [n|]; [|by apply Hnone].
    rewrite (Hsome n eq_refl). by apply Hid.
  - rewrite lookup_insert_eq. done.
Qed.

(** X14. save_message checks neither the chat nor the author: on an open
    store it stores the row as given and returns its new id whatever the
    chat_id, even when no chat has that id, and whatever the author text,
    even when it is no Author value. *)
Theorem save_message_is_unchecked
    (self : Store) (chat_id : Z) (author text : string) (w : World)
    (db : Database) (t : Table Message.row) (i : Z) :
  files w !! db_path self = Some db ->
  message db = Some t ->
  MIN_ROWID <= chat_id <= MAX_ROWID ->
  new_rowid t = Ok i ->
  ∃ w' t',
    save_message self None chat_id author text w = (Ok i, w')
    ∧ files w' !! db_path self
      = Some (mkDatabase (user_version db) (chat db) (Some t'))
    ∧ rows t' !! i = Some (Message.mk chat_id author text)
    ∧ (∀ k, k ≠ i → rows t' !! k = rows t !! k).
Proof.
  intros Hf Hm Hc Hnew. unfold save_message, mbind, IO_bind, eval.
  rewrite (connect_existing _ _ _ Hf). simpl.
  rewrite (bind_int_in_range _ Hc).
  rewrite (execute_existing _ _ _ _ _ Hf).
  unfold sql_insert_or_replace_message. rewrite Hm. simpl. rewrite Hnew.
  eexists _, _. split; [reflexivity|]. simpl.
  split; [apply lookup_insert_eq|]. simpl.
  split; [apply lookup_insert_eq|].
  intros k Hne. by rewrite lookup_insert_ne.
Qed.


(** X16. A message saved with an author text that Author accepts is
    returned by get_messages of its chat, with the id save_message returned,
    whenever get_messages returns; it returns if it returned before the
    message was saved, and then every message it returned before, except one
    replaced under the same id, is returned again. *)
Theorem save_message_then_get_messages
    (self : Store) (id : option Z) (chat_id : Z) (author text : string)
    (a : Author) (w w' : World) (i : Z) :
  save_message self id chat_id author text w = (Ok i, w') ->
  Author_call author = Ok a ->
  (∀ messages, (get_messages self chat_id w').1 = Ok messages →
               (i, a, text) ∈ messages)
  ∧ (∀ before, (get_messages self chat_id w).1 = Ok before →
     ∃ messages, (get_messages self chat_id w').1 = Ok messages
                 ∧ ∀ m, m ∈ before → m.1.1 ≠ i → m ∈ messages).
Proof.
  intros (db & t & t' & Hf & Hm & Hc & Hi & Hrows & ->)%save_message_inserted
    Ha.
  erewrite get_messages_existing;
    [|simpl; apply lookup_insert_eq|reflexivity|done].
  rewrite (get_messages_existing _ _ _ _ _ Hf Hm Hc). simpl.
  assert (Hnew : (i, author, text) ∈ selected chat_id t').
  { apply elem_of_selected. eexists. rewrite Hrows, lookup_insert_eq. done. }
  assert (Hconv : message_tuple (i, author, text) = Ok (i, a, text)).
  { unfold message_tuple, mbind, Result_bind. by rewrite Ha. }
  split.
  - intros messages Hok.
    destruct (comprehension_elem _ _ _ _ Hok Hnew) as (y & Hy & Hfy).
    rewrite Hconv in Hfy. by injection Hfy as <-.
  - intros before Hbefore.
    assert (Hall : is_Ok (comprehension message_tuple (selected chat_id t'))
                   = true).
    { apply comprehension_is_Ok, Forall_forall.
      intros [[k au] tx] (row & Hrow & Hcid & <- & <-)%elem_of_selected.
      rewrite Hrows in Hrow. destruct (decide (k = i)) as [->|Hne].
      - rewrite lookup_insert_eq in Hrow. injection Hrow as <-.
        cbn [Message.author Message.text]. by rewrite Hconv.
      - rewrite lookup_insert_ne in Hrow by done.
        assert (Hin : (k, Message.author row, Message.text row)
                      ∈ selected chat_id t)
          by (apply elem_of_selected; by exists row).
        destruct (comprehension_elem _ _ _ _ Hbefore Hin) as (y & _ & ->).
        done. }
    destruct (comprehension message_tuple (selected chat_id t'))
      as [messages|] eqn:Hafter; [|done].
    exists messages. split; [done|]. intros m Hin Hne.
    destruct (comprehension_elem_r _ _ _ _ Hbefore Hin)
      as ([[k au] tx] & Hsel & Hfm).
    pose proof Hfm as (a' & _ & ->)%message_tuple_Ok. simpl in Hne.
    apply elem_of_selected in Hsel as (row & Hrow & Hcid & <- & <-).
    assert (Hin' : (k, Message.author row, Message.text row)
                   ∈ selected chat_id t').
    { apply elem_of_selected. exists row.
      by rewrite Hrows, lookup_insert_ne. }
    destruct (comprehension_elem _ _ _ _ Hafter Hin') as (y & Hy & Hfy).
    rewrite Hfm in Hfy. by injection Hfy as <-.
Qed.

(** X17. get_messages(chat_id) returns nothing but the messages of that
    chat, each once: every entry is a row of the message table with that
    chat_id, its id and text unchanged and its author the member whose value
    is the stored text, and no id occurs twice. *)
Theorem get_messages_returns_rows_of_chat
    (self : Store) (chat_id : Z) (w : World) (db : Database)
    (t : Table Message.row) (messages : list (Z * Author * string)) :
  files w !! db_path self = Some db ->
  message db = Some t ->
  (get_messages self chat_id w).1 = Ok messages ->
  (∀ id author text, (id, author, text) ∈ messages →
     ∃ row, rows t !! id = Some row ∧ Message.chat_id row = chat_id
            ∧ Message.text row = text
            ∧ Author_value author = Message.author row)
  ∧ NoDup messages.*1.*1.
Proof.
  intros Hf Hm Hok.
  assert (Hc : MIN_ROWID <= chat_id <= MAX_ROWID).
  { revert Hok. unfold get_messages, mbind, IO_bind, eval.
    rewrite (connect_existing _ _ _ Hf).
    destruct (bind_int chat_id) as [c|] eqn:E; [|done].
    by apply bind_int_Ok in E as [_ ?]. }
  rewrite (get_messages_existing _ _ _ _ _ Hf Hm Hc) in Hok. simpl in Hok.
  split.
  - intros id author text Hin.
    destruct (comprehension_elem_r _ _ _ _ Hok Hin)
      as ([[k au] tx] & Hsel & Hfm).
    apply message_tuple_Ok in Hfm as (a' & Ha & [= -> -> ->]).
    apply elem_of_selected in Hsel as (row & Hrow & Hcid & <- & <-).
    exists row. repeat (split; [done|]).
    by apply Author_call_Ok in Ha as [_ ?].
  - rewrite (message_tuple_ids _ _ Hok). unfold selected.
    rewrite <- !list_fmap_compose.
    assert (Heq : (fst ∘ fst
                   ∘ (λ kr : Z * Message.row,
                        (kr.1, Message.author kr.2, Message.text kr.2)))
                  <$> filter (λ kr : Z * Message.row,
                                Message.chat_id kr.2 = chat_id)
                        (scan (rows t))
                  = (filter (λ kr : Z * Message.row,
                               Message.chat_id kr.2 = chat_id)
                       (scan (rows t))).*1) by done.
    rewrite Heq. apply NoDup_fmap_fst.
    + intros k r1 r2 [_ H1%elem_of_scan]%list_elem_of_filter
        [_ H2%elem_of_scan]%list_elem_of_filter. congruence.
    + apply NoDup_filter. unfold scan. rewrite merge_sort_Permutation.
      apply NoDup_map_to_list.
Qed.

(** ** Further properties: listing chats *)

(** X18. get_chats and get_chat agree: when get_chats returns, a tuple with
    a given id is in its result exactly when get_chat of that id returns
    that tuple. *)
Theorem get_chats_agrees_with_get_chat
    (self : Store) (w w0 : World) (db : Database) (t : Table Chat.row)
    (chats : list ChatTuple) :
  files w !! db_path self = Some db ->
  chat db = Some t ->
  get_chats self w = (Ok chats, w0) ->
  ∀ (id : Z) (name : option string) (model : string)
    (system format : option string) (parameters : Json)
    (keep_alive : option Z) (tools : Json),
    MIN_ROWID <= id <= MAX_ROWID →
    ((id, name, model, system, format, parameters, keep_alive, tools) ∈ chats
     ↔ get_chat self id w
       = (Ok (Some (id, name, model, system, format, parameters, keep_alive,
                    tools)), w)).
Proof.
  intros Hf Hc Hchats id name model system format parameters keep_alive tools
    Hid.
  rewrite (get_chats_existing _ _ _ _ Hf Hc) in Hchats.
  injection Hchats as Hok _.
  rewrite (get_chat_existing _ _ _ _ _ Hf Hc Hid). split.
  - intros Hin.
    destruct (comprehension_elem_r _ _ _ _ Hok Hin) as ([k r] & Hscan & Hk).
    pose proof Hk as (p & tl & _ & _ & [= -> _ _ _ _ _ _ _])%chat_tuple_Ok.
    apply elem_of_scan in Hscan. rewrite Hscan. unfold fetched.
    by rewrite Hk.
  - intros [= Hfetched]. unfold fetched in Hfetched.
    destruct (rows t !! id) as [r|] eqn:Hr; [|done].
    apply elem_of_scan in Hr.
    destruct (comprehension_elem _ _ _ _ Hok Hr) as (y & Hy & Hfy).
    rewrite Hfy in Hfetched. by injection Hfetched as ->.
Qed.

(** X19. One chat row that cannot be decoded makes get_chats raise: when
    get_chat raises for some id, get_chats raises. *)
Theorem get_chats_raises_when_get_chat_does
    (self : Store) (id : Z) (w : World) (db : Database)
    (t : Table Chat.row) :
  files w !! db_path self = Some db ->
  chat db = Some t ->
  MIN_ROWID <= id <= MAX_ROWID ->
  is_Ok (get_chat self id w).1 = false ->
  is_Ok (get_chats self w).1 = false.
Proof.
  intros Hf Hc Hid.
  rewrite (get_chat_existing _ _ _ _ _ Hf Hc Hid).
  rewrite (get_chats_existing _ _ _ _ Hf Hc). simpl. unfold fetched.
  destruct (rows t !! id) as [r|] eqn:Hr; [|done].
  intros Hbad. apply (comprehension_raises _ _ (id, r)).
  - by apply elem_of_scan.
  - by destruct (chat_tuple (id, r)).
Qed.

(** ** Further properties: the header and reopening *)

Lemma geb_negb_gtb a b : Version.geb a b = negb (Version.gtb b a).
Proof.
  unfold Version.geb, Version.gtb. rewrite (compare_antisym a b).
  by destruct (Version.compare a b).
Qed.

(** Nothing is pending for a file stamped with the current or a later
    version. *)
Lemma pending_not_older db_version :
  Version.geb db_version current_version = true ->
  pending db_version = [].
Proof.
  intros Hge. rewrite geb_negb_gtb, negb_true_iff in Hge.
  assert (Hnot : ¬ Version.gt current_version db_version)
    by (rewrite <- gtb_gt; congruence).
  unfold pending. induction upgrades as [|[v steps] l IH]; simpl; [done|].
  unfold eligible at 1. simpl.
  destruct (Version.geb current_version v) eqn:E1; simpl; [|done].
  destruct (Version.gtb v db_version) eqn:E2; simpl; [|done].
  exfalso. rewrite geb_negb_gtb, negb_true_iff in E1.
  assert (H1 : ¬ Version.gt v current_version)
    by (rewrite <- gtb_gt; congruence).
  apply gtb_gt in E2. unfold Version.gt in *. lia.
Qed.

(** X20. Opening a file stamped by the running release or a later one
    applies no upgrade action and leaves both tables as they are, but still
    stamps the header with the version of the running release, lowering it
    when the file was stamped by a later one. *)
Theorem get_store_on_database_not_older
    (w : World) (db : Database) :
  _store w = None ->
  files w !! store_db_path = Some db ->
  Version.representable current_version ->
  Version.geb (int_to_semantic_version (user_version db)) current_version
    = true ->
  ∃ n w',
    semantic_version_to_int current_version = Ok n
    ∧ get_store w = (Ok (mkStore store_db_path), w')
    ∧ files w' !! store_db_path = Some (mkDatabase n (chat db) (message db))
    ∧ awaited w' = awaited w.
Proof.
  intros Hs Hf Hv Hge.
  pose proof (get_store_upgrade w db Hs Hf) as Hg. cbv zeta in Hg.
  pose proof (semantic_version_to_int_representable _ Hv) as Hn.
  rewrite (pending_not_older _ Hge), Hn in Hg. simpl in Hg.
  eexists _, _. split; [exact Hn|]. split; [exact Hg|]. simpl.
  rewrite lookup_insert_eq, app_nil_r. split; [|done].
  unfold pragma_set_user_version. by rewrite (atoi32_encoded _ _ Hn).
Qed.

(** X21. On an existing file, get_user_version returns the version that
    set_user_version wrote, for every representable version, and
    set_user_version changes neither table. *)
Theorem set_user_version_then_get_user_version
    (self : Store) (version : Version.t) (w : World) (db : Database) :
  files w !! db_path self = Some db ->
  Version.representable version ->
  ∃ w' db',
    set_user_version self version w = (Ok tt, w')
    ∧ get_user_version self w' = (Ok version, w')
    ∧ files w' !! db_path self = Some db'
    ∧ chat db' = chat db ∧ message db' = message db.
Proof.
  intros Hf Hv.
  pose proof (semantic_version_to_int_representable _ Hv) as Hn.
  eexists _, _. split; [exact (set_user_version_existing _ _ _ _ _ Hf Hn)|].
  split; [|split; [simpl; apply lookup_insert_eq|done]].
  erewrite get_user_version_existing by (simpl; apply lookup_insert_eq).
  simpl. by rewrite (atoi32_encoded _ _ Hn), (decode_encode _ _ Hn).
Qed.

(** What a successful open that was not served from the cache left: the
    store of the configured path, its file stamped with the encoding of the
    current version. *)
Lemma get_store_stamped w store w' :
  _store w = None ->
  get_store w = (Ok store, w') ->
  ∃ n db',
    semantic_version_to_int current_version = Ok n
    ∧ store = mkStore store_db_path
    ∧ files w' !! store_db_path = Some db'
    ∧ user_version db' = n.
Proof.
  intros Hs. destruct (files w !! store_db_path) as [db|] eqn:Hf.
  - rewrite (get_store_upgrade w db Hs Hf). cbv zeta.
    destruct (run_steps _ db) as [[[]|e] db1]; [|done].
    destruct (semantic_version_to_int current_version) as [n|] eqn:Hn;
      [|done].
    intros [= <- <-]. exists n. eexists. split; [done|]. split; [done|].
    simpl. split; [apply lookup_insert_eq|]. simpl.
    by apply atoi32_encoded in Hn.
  - unfold get_store, mbind, IO_bind, read_store, mkdir, path_exists.
    rewrite Hs. simpl. fold store_db_path. rewrite Hf.
    rewrite bool_decide_false by (intros [? [=]]). simpl. rewrite Hf.
    erewrite execute_existing by (simpl; apply lookup_insert_eq). simpl.
    destruct (semantic_version_to_int current_version) as [n|e] eqn:Hn.
    + erewrite set_user_version_existing;
        [|simpl; apply lookup_insert_eq|exact Hn].
      simpl. intros [= <- <-]. exists n. eexists.
      split; [done|]. split; [done|]. simpl.
      split; [apply lookup_insert_eq|]. simpl.
      by apply atoi32_encoded in Hn.
    + erewrite set_user_version_raises;
        [|simpl; apply lookup_insert_eq|exact Hn].
      done.
Qed.

(** X22. Opening is idempotent across processes: after get_store has
    returned, a new process of the same release that opens the store applies
    no upgrade action and leaves the database file exactly as it is. *)
Theorem get_store_reopen
    (w w' : World) (store : Store) :
  _store w = None ->
  get_store w = (Ok store, w') ->
  let restarted := set_store None w' in
  ∃ w'',
    get_store restarted = (Ok store, w'')
    ∧ files w'' !! db_path store = files w' !! db_path store
    ∧ awaited w'' = awaited w'.
Proof.
  intros Hs Hopen.
  destruct (get_store_stamped _ _ _ Hs Hopen) as (n & db' & Hn & -> & Hf & Hu).
  simpl.
  destruct (get_store_up_to_date (set_store None w') db' n eq_refl Hf Hn Hu)
    as (w'' & Hg & Hfile & Hlog).
  exists w''. split; [exact Hg|]. split; [|exact Hlog]. by rewrite Hfile, Hf.
Qed.

(** X23. A store that was just created is empty: after get_store on a path
    without a file, get_chats returns no chat, get_chat returns None for
    every id and get_messages returns no message for every chat. *)
Theorem new_store_is_empty (w w' : World) (store : Store) :
  _store w = None ->
  files w !! store_db_path = None ->
  get_store w = (Ok store, w') ->
  get_chats store w' = (Ok [], w')
  ∧ (∀ id, MIN_ROWID <= id <= MAX_ROWID → get_chat store id w' = (Ok None, w'))
  ∧ (∀ chat_id, MIN_ROWID <= chat_id <= MAX_ROWID →
                get_messages store chat_id w' = (Ok [], w')).
Proof.
  intros Hs Hf.
  unfold get_store, mbind, IO_bind, read_store, mkdir, path_exists.
  rewrite Hs. simpl. fold store_db_path. rewrite Hf.
  rewrite bool_decide_false by (intros [? [=]]). simpl. rewrite Hf.
  erewrite execute_existing by (simpl; apply lookup_insert_eq). simpl.
  destruct (semantic_version_to_int current_version) as [n|e] eqn:Hn.
  - erewrite set_user_version_existing;
      [|simpl; apply lookup_insert_eq|exact Hn].
    simpl. intros [= <- <-].
    split; [|split].
    + erewrite get_chats_existing;
        [|simpl; apply lookup_insert_eq|reflexivity].
      simpl. unfold scan. by rewrite map_to_list_empty.
    + intros id Hid.
      erewrite get_chat_existing;
        [|simpl; apply lookup_insert_eq|reflexivity|done].
      simpl. by rewrite lookup_empty.
    + intros chat_id Hid.
      erewrite get_messages_existing;
        [|simpl; apply lookup_insert_eq|reflexivity|done].
      unfold selected, scan. simpl. by rewrite map_to_list_empty.
  - erewrite set_user_version_raises;
      [|simpl; apply lookup_insert_eq|exact Hn].
    done.
Qed.

End Store.

(** ** The store on the sample data *)

Lemma decode_encode_roundtrip_witness :
  Version.representable Sample.v1_1_0
  ∧ ∃ n, semantic_version_to_int Sample.v1_1_0 = Ok n
         ∧ int_to_semantic_version n = Sample.v1_1_0.
Proof.
  assert (H : Version.representable Sample.v1_1_0)
    by (unfold Version.representable; simpl; lia).
  split; [exact H|]. exact (decode_encode_roundtrip Sample.v1_1_0 H).
Defined.

Lemma encode_strictly_monotonic_witness :
  Version.gt Sample.v1_0_0 (Version.mk 0 999 999)
  ∧ ∃ na nb, semantic_version_to_int Sample.v1_0_0 = Ok na
             ∧ semantic_version_to_int (Version.mk 0 999 999) = Ok nb
             ∧ na > nb.
Proof.
  assert (Ha : Version.representable Sample.v1_0_0)
    by (unfold Version.representable; simpl; lia).
  assert (Hb : Version.representable (Version.mk 0 999 999))
    by (unfold Version.representable; simpl; lia).
  assert (Hgt : Version.gt Sample.v1_0_0 (Version.mk 0 999 999))
    by (unfold Version.gt; simpl; lia).
  split; [exact Hgt|].
  exact (encode_strictly_monotonic _ _ Ha Hb Hgt).
Defined.


(** Release 1.2.0 opens the same file: both actions return and the header
    is stamped 1002000. *)
Lemma get_store_upgrade_stamps_current_version_witness :
  Version.representable Sample.v1_2_0
  ∧ ∃ db1 w',
      run_steps
        (pending Sample.v1_2_0 Sample.registry
           (int_to_semantic_version (user_version Sample.database))).*2
        Sample.database = (Ok tt, db1)
      ∧ get_store Sample.data_dir Sample.v1_2_0 Sample.registry
          Sample.installed = (Ok Sample.store, w')
      ∧ files w' !! Sample.path
        = Some (mkDatabase 1002000 (chat db1) (message db1)).
Proof.
  assert (Hv : Version.representable Sample.v1_2_0)
    by (unfold Version.representable; simpl; lia).
  split; [exact Hv|].
  set (db1 := (run_steps
                 (pending Sample.v1_2_0 Sample.registry
                    (int_to_semantic_version (user_version Sample.database))).*2
                 Sample.database).2).
  assert (Hrun : run_steps
                   (pending Sample.v1_2_0 Sample.registry
                      (int_to_semantic_version
                         (user_version Sample.database))).*2
                   Sample.database = (Ok tt, db1)) by reflexivity.
  destruct (get_store_upgrade_stamps_current_version Sample.data_dir
              Sample.v1_2_0 Sample.registry Sample.installed
              Sample.database db1 eq_refl eq_refl Hv Hrun)
    as (n & w' & Hn & Hg & Hfile & _).
  injection Hn as <-. exists db1, w'. split; [exact Hrun|].
  split; [exact Hg|exact Hfile].
Defined.

(** Release 1.1.0 opens the file with an entry whose second action raises:
    the open raises, the header stays at 1000000. *)
Lemma get_store_failed_migration_is_retried_witness :
  (∀ version steps, (version, steps) ∈ Sample.failing_registry →
                    Forall keeps_header steps)
  ∧ ∃ w',
      get_store Sample.data_dir Sample.v1_1_0 Sample.failing_registry
        Sample.installed
      = (Raise (OperationalError "duplicate column name: tools"), w')
      ∧ _store w' = None
      ∧ (user_version <$> files w' !! Sample.path) = Some 1000000.
Proof.
  assert (Hkeep : ∀ version steps,
            (version, steps) ∈ Sample.failing_registry →
            Forall keeps_header steps).
  { intros version steps [[= -> ->]|[]%elem_of_nil]%elem_of_cons.
    repeat constructor; intros db; reflexivity. }
  split; [exact Hkeep|].
  destruct (get_store_failed_migration_is_retried Sample.data_dir
              Sample.v1_1_0 Sample.failing_registry Sample.installed
              Sample.database
              (Sample.backfill_keep_alive Sample.database).2
              (Sample.backfill_keep_alive Sample.database).2
              [(Sample.v1_1_0, Sample.backfill_keep_alive)] []
              Sample.v1_1_0 Sample.add_existing_column
              (OperationalError "duplicate column name: tools")
              eq_refl eq_refl Hkeep eq_refl eq_refl eq_refl)
    as (w' & Hg & Hnone & Hfile & Hu & _).
  exists w'. split; [exact Hg|]. split; [exact Hnone|].
  change Sample.path with (store_db_path Sample.data_dir).
  rewrite Hfile. reflexivity.
Defined.

(** Release 1.1.0 starts without a file. *)
Lemma get_store_bootstrap_witness :
  _store Sample.fresh = None
  ∧ files Sample.fresh !! store_db_path Sample.data_dir = None
  ∧ Version.representable Sample.v1_1_0
  ∧ ∃ w',
      get_store Sample.data_dir Sample.v1_1_0 Sample.registry Sample.fresh
      = (Ok Sample.store, w')
      ∧ files w' !! Sample.path
        = Some (mkDatabase 1001000 (Some empty_table) (Some empty_table))
      ∧ awaited w' = [].
Proof.
  assert (Hv : Version.representable Sample.v1_1_0)
    by (unfold Version.representable; simpl; lia).
  do 2 (split; [reflexivity|]). split; [exact Hv|].
  destruct (get_store_bootstrap Sample.data_dir Sample.v1_1_0
              Sample.registry Sample.fresh eq_refl eq_refl Hv)
    as (n & w' & Hn & Hg & Hfile & _ & Hlog & _).
  injection Hn as <-. exists w'. by repeat split.
Defined.

(** C7. delete_chat(id) removes the chat row, but the message rows of that
    chat stay: the connection it opens never enables the enforcement of
    foreign keys, so the ON DELETE CASCADE of the message table does not
    act.  On a new store: a chat is saved, a message is saved for it, the
    chat is deleted; get_chat then finds no chat and get_messages still
    returns the message. *)
Theorem delete_chat_leaves_messages :
  let scenario : IO (Z * option (ChatTuple MiniJson.t)
                     * list (Z * Sample.author * string)) :=
    store ← get_store Sample.data_dir Sample.v1_1_0 Sample.registry;
    id ← save_chat MiniJson.t MiniJson.json_dumps store None "chat" "llama3"
           None "" Sample.temperature 5 Sample.no_tools;
    save_message store None id "me" "hello" ;;
    delete_chat store id ;;
    chat ← get_chat MiniJson.t MiniJson.loads store id;
    messages ← get_messages Sample.author Sample.author_members
                 Sample.author_value store id;
    mret (id, chat, messages) in
  (scenario Sample.fresh).1 = Ok (1, None, [(1, Sample.USER, "hello")]).
Proof. vm_compute. reflexivity. Qed.


(** The chat of the sample file edited. *)
Lemma edit_chat_frame_witness :
  let w' := (edit_chat MiniJson.t MiniJson.json_dumps Sample.store 1 "renamed"
               (Some "You are terse.") "json" Sample.temperature 10
               Sample.no_tools Sample.running).2 in
  ∃ t',
    files w' !! Sample.path
      = Some (mkDatabase 1000000 (Some t') (message Sample.database))
    ∧ Chat.model <$> rows t' !! 1 = Some "llama3"
    ∧ Chat.name <$> rows t' !! 1 = Some (Some "renamed").
Proof.
  destruct (edit_chat_frame MiniJson.t MiniJson.json_dumps Sample.store 1
              "renamed" (Some "You are terse.") "json" Sample.temperature 10
              Sample.no_tools Sample.running Sample.database
              (mkTable {[1 := Sample.chat_row]} 1) eq_refl eq_refl)
    as (t' & Hfile & _ & _ & _ & Hmodel & Hok & _).
  exists t'. split; [exact Hfile|]. split; [exact Hmodel|].
  destruct (Hok eq_refl) as (p & tl & _ & _ & ->). reflexivity.
Defined.

(** The messages of the sample chat; with a row whose author is "system",
    which is no member of the enumeration, the call raises. *)
Lemma get_messages_returns_iff_authors_valid_witness :
  is_Ok (get_messages Sample.author Sample.author_members
           Sample.author_value Sample.store 1 Sample.running).1 = true
  ∧ ∃ id row,
      ({[1 := Message.mk 1 "me" "hello"; 2 := Message.mk 1 "ollama" "hi";
         3 := Message.mk 1 "system" "be brief"]} : gmap Z Message.row) !! id
      = Some row
      ∧ Message.chat_id row = 1
      ∧ ¬ valid_author Sample.author Sample.author_members
            Sample.author_value (Message.author row).
Proof.
  split; [vm_compute; reflexivity|].
  set (w := mkWorld (Some Sample.store) {[Sample.data_dir]}
              {[Sample.path := Sample.database_with_stranger]} []).
  assert (Hrange : MIN_ROWID <= 1 <= MAX_ROWID)
    by (unfold MIN_ROWID, MAX_ROWID; lia).
  destruct (get_messages_returns_iff_authors_valid Sample.author
              Sample.author_members Sample.author_value Sample.store 1 w
              Sample.database_with_stranger
              (mkTable {[1 := Message.mk 1 "me" "hello";
                         2 := Message.mk 1 "ollama" "hi";
                         3 := Message.mk 1 "system" "be brief"]} 3)
              eq_refl eq_refl Hrange)
    as (_ & _ & Hraise).
  apply Hraise. vm_compute. reflexivity.
Defined.

(** ** Further runs on the sample data *)

Lemma rowid_1_in_range : MIN_ROWID <= 1 <= MAX_ROWID.
Proof. unfold MIN_ROWID, MAX_ROWID. lia. Qed.

Lemma rowid_5_in_range : MIN_ROWID <= 5 <= MAX_ROWID.
Proof. unfold MIN_ROWID, MAX_ROWID. lia. Qed.

Lemma get_store_again_witness :
  let opened :=
    get_store Sample.data_dir Sample.v1_1_0 Sample.registry Sample.fresh in
  opened.1 = Ok Sample.store
  ∧ get_store Sample.data_dir Sample.v1_1_0 Sample.registry opened.2
    = (Ok Sample.store, opened.2).
Proof.
  cbv zeta.
  assert (H : get_store Sample.data_dir Sample.v1_1_0 Sample.registry
                Sample.fresh
              = (Ok Sample.store,
                 (get_store Sample.data_dir Sample.v1_1_0 Sample.registry
                    Sample.fresh).2)) by (vm_compute; reflexivity).
  split; [by rewrite H|].
  exact (get_store_again Sample.data_dir Sample.v1_1_0 Sample.registry
           Sample.fresh _ Sample.store H).
Defined.

Lemma reads_change_nothing_witness :
  files Sample.running !! db_path Sample.store = Some Sample.database
  ∧ (get_user_version Sample.store Sample.running).2 = Sample.running
  ∧ (get_chat MiniJson.t MiniJson.loads Sample.store 1 Sample.running).2
    = Sample.running
  ∧ (get_chats MiniJson.t MiniJson.loads Sample.store Sample.running).2
    = Sample.running
  ∧ (get_messages Sample.author Sample.author_members Sample.author_value
       Sample.store 1 Sample.running).2 = Sample.running.
Proof.
  split; [reflexivity|].
  exact (reads_change_nothing MiniJson.t MiniJson.loads Sample.author
           Sample.author_members Sample.author_value Sample.store 1 1
           Sample.running Sample.database eq_refl).
Defined.

Lemma get_chat_absent_witness :
  rows Sample.chats !! 5 = None
  ∧ get_chat MiniJson.t MiniJson.loads Sample.store 5 Sample.running
    = (Ok None, Sample.running).
Proof.
  split; [reflexivity|].
  exact (get_chat_absent MiniJson.t MiniJson.loads Sample.store 5
           Sample.running Sample.database Sample.chats eq_refl eq_refl
           rowid_5_in_range eq_refl).
Defined.

Lemma delete_chat_then_get_chat_witness :
  let w' := (delete_chat Sample.store 1 Sample.running).2 in
  get_chat MiniJson.t MiniJson.loads Sample.store 1 w' = (Ok None, w').
Proof.
  destruct (delete_chat_then_get_chat MiniJson.t MiniJson.loads Sample.store
              1 Sample.running Sample.database Sample.chats eq_refl eq_refl
              rowid_1_in_range) as (_ & H & _).
  exact H.
Defined.

Lemma delete_chat_absent_witness :
  rows Sample.chats !! 5 = None
  ∧ delete_chat Sample.store 5 Sample.running = (Ok tt, Sample.running).
Proof.
  split; [reflexivity|].
  exact (delete_chat_absent Sample.store 5 Sample.running Sample.database
           Sample.chats eq_refl eq_refl rowid_5_in_range eq_refl).
Defined.

Lemma delete_chat_keeps_messages_witness :
  (get_messages Sample.author Sample.author_members Sample.author_value
     Sample.store 1 (delete_chat Sample.store 1 Sample.running).2).1
  = Ok [(1, Sample.USER, "hello"); (2, Sample.OLLAMA, "hi")].
Proof.
  rewrite (delete_chat_keeps_messages Sample.author Sample.author_members
             Sample.author_value Sample.store 1 1 Sample.running
             Sample.database Sample.chats eq_refl eq_refl rowid_1_in_range).
  vm_compute. reflexivity.
Defined.

Lemma rename_chat_then_get_chat_witness :
  get_chat MiniJson.t MiniJson.loads Sample.store 1 Sample.running
  = (Ok (Some (1, None, "llama3", None, None, MiniJson.Obj [], None,
               MiniJson.Arr [])), Sample.running)
  ∧ get_chat MiniJson.t MiniJson.loads Sample.store 1
      (rename_chat Sample.store 1 "greetings" Sample.running).2
    = (Ok (Some (1, Some "greetings", "llama3", None, None, MiniJson.Obj [],
                 None, MiniJson.Arr [])),
       (rename_chat Sample.store 1 "greetings" Sample.running).2).
Proof.
  assert (H : get_chat MiniJson.t MiniJson.loads Sample.store 1 Sample.running
              = (Ok (Some (1, None, "llama3", None, None, MiniJson.Obj [],
                           None, MiniJson.Arr [])), Sample.running))
    by (vm_compute; reflexivity).
  split; [exact H|].
  destruct (rename_chat_then_get_chat MiniJson.t MiniJson.loads Sample.store 1
              "greetings" Sample.running Sample.running 1 None "llama3" None
              None (MiniJson.Obj []) None (MiniJson.Arr []) H) as (_ & H' & _).
  exact H'.
Defined.

Lemma update_of_absent_chat_witness :
  rows Sample.chats !! 5 = None
  ∧ rename_chat Sample.store 5 "nobody" Sample.running
    = (Ok tt, Sample.running)
  ∧ edit_chat MiniJson.t MiniJson.json_dumps Sample.store 5 "nobody" None ""
      Sample.temperature 5 Sample.no_tools Sample.running
    = (Ok tt, Sample.running).
Proof.
  split; [reflexivity|].
  destruct (update_of_absent_chat MiniJson.t MiniJson.json_dumps Sample.store
              5 "nobody" None "" Sample.temperature 5 Sample.no_tools
              Sample.running Sample.database Sample.chats eq_refl eq_refl
              rowid_5_in_range eq_refl) as [Hrename Hedit].
  split; [exact Hrename|].
  exact (Hedit eq_refl eq_refl rowid_5_in_range).
Defined.

Lemma edit_chat_then_get_chat_witness :
  let w' := (edit_chat MiniJson.t MiniJson.json_dumps Sample.store 1
               "greetings" (Some "Be brief.") "json" Sample.temperature 10
               Sample.no_tools Sample.running).2 in
  get_chat MiniJson.t MiniJson.loads Sample.store 1 w'
  = (Ok (Some (1, Some "greetings", "llama3", Some "Be brief.", Some "json",
               Sample.temperature, Some 10, Sample.no_tools)), w').
Proof.
  assert (H : get_chat MiniJson.t MiniJson.loads Sample.store 1 Sample.running
              = (Ok (Some (1, None, "llama3", None, None, MiniJson.Obj [],
                           None, MiniJson.Arr [])), Sample.running))
    by (vm_compute; reflexivity).
  apply (edit_chat_then_get_chat MiniJson.t MiniJson.json_dumps MiniJson.loads
           Sample.store 1 "greetings" (Some "Be brief.") "json"
           Sample.temperature 10 Sample.no_tools Sample.running Sample.running
           1 None "llama3" None None (MiniJson.Obj []) None (MiniJson.Arr [])).
  - intros s [= <-]. vm_compute. reflexivity.
  - intros s [= <-]. vm_compute. reflexivity.
  - exact H.
  - vm_compute. reflexivity.
Defined.

Lemma save_chat_assigns_new_id_witness :
  let saved :=
    save_chat MiniJson.t MiniJson.json_dumps Sample.store None "chat"
      "llama3" None "" Sample.temperature 5 Sample.no_tools Sample.running in
  saved.1 = Ok 2 ∧ 0 < 2 ∧ rows Sample.chats !! 2 = None.
Proof.
  cbv zeta.
  assert (H : save_chat MiniJson.t MiniJson.json_dumps Sample.store None
                "chat" "llama3" None "" Sample.temperature 5 Sample.no_tools
                Sample.running
              = (Ok 2,
                 (save_chat MiniJson.t MiniJson.json_dumps Sample.store None
                    "chat" "llama3" None "" Sample.temperature 5
                    Sample.no_tools Sample.running).2))
    by (vm_compute; reflexivity).
  split; [by rewrite H|].
  destruct (save_chat_assigns_new_id MiniJson.t MiniJson.json_dumps
              Sample.store "chat" "llama3" None "" Sample.temperature 5
              Sample.no_tools Sample.running _ 2 H)
    as (Hpos & db & t & t' & Hf & Hc & _ & _ & Hfresh & _).
  split; [exact Hpos|].
  injection Hf as <-. injection Hc as <-. exact Hfresh.
Defined.

Lemma save_chat_with_id_witness :
  ∃ w',
    save_chat MiniJson.t MiniJson.json_dumps Sample.store (Some 1) "chat"
      "mistral" None "" Sample.temperature 5 Sample.no_tools Sample.running
    = (Ok 1, w')
    ∧ get_chat MiniJson.t MiniJson.loads Sample.store 1 w'
      = (Ok (Some (1, Some "chat", "mistral", None, Some "",
                   Sample.temperature, Some 5, Sample.no_tools)), w').
Proof.
  destruct (save_chat_with_id MiniJson.t MiniJson.json_dumps Sample.store 1
              "chat" "mistral" None "" Sample.temperature 5 Sample.no_tools
              Sample.running Sample.database Sample.chats _ _ eq_refl eq_refl
              eq_refl eq_refl rowid_1_in_range rowid_5_in_range)
    as (w' & t' & Hsave & _).
  exists w'. split; [exact Hsave|].
  injection Hsave as <-. vm_compute. reflexivity.
Defined.

Lemma save_chat_frame_witness :
  let w' :=
    (save_chat MiniJson.t MiniJson.json_dumps Sample.store None "chat"
       "llama3" None "" Sample.temperature 5 Sample.no_tools
       Sample.running).2 in
  ∃ db', files w' !! db_path Sample.store = Some db'
         ∧ user_version db' = 1000000
         ∧ message db' = Some Sample.messages.
Proof.
  destruct (save_chat_frame MiniJson.t MiniJson.json_dumps Sample.store None
              "chat" "llama3" None "" Sample.temperature 5 Sample.no_tools
              Sample.running Sample.database eq_refl) as [H _].
  exact H.
Defined.

Lemma save_chat_never_reuses_id_witness :
  ∃ w1 w2 w3,
    save_chat MiniJson.t MiniJson.json_dumps Sample.store None "first"
      "llama3" None "" Sample.temperature 5 Sample.no_tools Sample.running
    = (Ok 2, w1)
    ∧ delete_chat Sample.store 2 w1 = (Ok tt, w2)
    ∧ save_chat MiniJson.t MiniJson.json_dumps Sample.store None "second"
        "llama3" None "" Sample.temperature 5 Sample.no_tools w2
      = (Ok 3, w3)
    ∧ 2 < 3.
Proof.
  eexists _, _, _.
  assert (H1 : save_chat MiniJson.t MiniJson.json_dumps Sample.store None
                 "first" "llama3" None "" Sample.temperature 5
                 Sample.no_tools Sample.running
               = (Ok 2,
                  (save_chat MiniJson.t MiniJson.json_dumps Sample.store None
                     "first" "llama3" None "" Sample.temperature 5
                     Sample.no_tools Sample.running).2))
    by (vm_compute; reflexivity).
  split; [exact H1|].
  match type of H1 with _ = (_, ?w1) =>
    assert (H2 : delete_chat Sample.store 2 w1
                 = (Ok tt, (delete_chat Sample.store 2 w1).2))
      by (vm_compute; reflexivity)
  end.
  split; [exact H2|].
  match type of H2 with _ = (_, ?w2) =>
    assert (H3 : save_chat MiniJson.t MiniJson.json_dumps Sample.store None
                   "second" "llama3" None "" Sample.temperature 5
                   Sample.no_tools w2
                 = (Ok 3,
                    (save_chat MiniJson.t MiniJson.json_dumps Sample.store
                       None "second" "llama3" None "" Sample.temperature 5
                       Sample.no_tools w2).2))
      by (vm_compute; reflexivity)
  end.
  split; [exact H3|].
  exact (save_chat_never_reuses_id MiniJson.t MiniJson.json_dumps Sample.store
           _ _ _ _ _ _ _ _ _ _ _ _ _ _ _ _ _ _ _ _ H1 H2 H3).
Defined.

Lemma save_message_is_unchecked_witness :
  rows Sample.chats !! 7 = None
  ∧ ∃ w' t',
      save_message Sample.store None 7 "nobody" "lost" Sample.running
      = (Ok 3, w')
      ∧ files w' !! db_path Sample.store
        = Some (mkDatabase 1000000 (Some Sample.chats) (Some t'))
      ∧ rows t' !! 3 = Some (Message.mk 7 "nobody" "lost").
Proof.
  split; [reflexivity|].
  assert (Hrange : MIN_ROWID <= 7 <= MAX_ROWID)
    by (unfold MIN_ROWID, MAX_ROWID; lia).
  destruct (save_message_is_unchecked Sample.store 7 "nobody" "lost"
              Sample.running Sample.database Sample.messages 3 eq_refl eq_refl
              Hrange eq_refl) as (w' & t' & Hsave & Hfile & Hrow & _).
  by exists w', t'.
Defined.


Lemma save_message_then_get_messages_witness :
  let w' := (save_message Sample.store None 1 "me" "thanks"
               Sample.running).2 in
  ∃ messages,
    (get_messages Sample.author Sample.author_members Sample.author_value
       Sample.store 1 w').1 = Ok messages
    ∧ (3, Sample.USER, "thanks") ∈ messages
    ∧ (1, Sample.USER, "hello") ∈ messages.
Proof.
  cbv zeta.
  assert (H : save_message Sample.store None 1 "me" "thanks" Sample.running
              = (Ok 3,
                 (save_message Sample.store None 1 "me" "thanks"
                    Sample.running).2)) by (vm_compute; reflexivity).
  assert (Hbefore : (get_messages Sample.author Sample.author_members
                       Sample.author_value Sample.store 1 Sample.running).1
                    = Ok [(1, Sample.USER, "hello"); (2, Sample.OLLAMA, "hi")])
    by (vm_compute; reflexivity).
  destruct (save_message_then_get_messages Sample.author Sample.author_members
              Sample.author_value Sample.store None 1 "me" "thanks"
              Sample.USER Sample.running _ 3 H eq_refl) as [Hin Hkept].
  destruct (Hkept _ Hbefore) as (messages & Hafter & Hold).
  exists messages. split; [exact Hafter|]. split; [exact (Hin _ Hafter)|].
  apply Hold; [|done]. apply elem_of_cons. by left.
Defined.

Lemma get_messages_returns_rows_of_chat_witness :
  (get_messages Sample.author Sample.author_members Sample.author_value
     Sample.store 1 Sample.running).1
  = Ok [(1, Sample.USER, "hello"); (2, Sample.OLLAMA, "hi")]
  ∧ NoDup [1; 2].
Proof.
  assert (H : (get_messages Sample.author Sample.author_members
                 Sample.author_value Sample.store 1 Sample.running).1
              = Ok [(1, Sample.USER, "hello"); (2, Sample.OLLAMA, "hi")])
    by (vm_compute; reflexivity).
  split; [exact H|].
  destruct (get_messages_returns_rows_of_chat Sample.author
              Sample.author_members Sample.author_value Sample.store 1
              Sample.running Sample.database Sample.messages _ eq_refl eq_refl
              H) as [_ Hnodup].
  exact Hnodup.
Defined.

Lemma get_chats_agrees_with_get_chat_witness :
  get_chats MiniJson.t MiniJson.loads Sample.store Sample.running
  = (Ok [(1, None, "llama3", None, None, MiniJson.Obj [], None,
          MiniJson.Arr [])], Sample.running)
  ∧ get_chat MiniJson.t MiniJson.loads Sample.store 1 Sample.running
    = (Ok (Some (1, None, "llama3", None, None, MiniJson.Obj [], None,
                 MiniJson.Arr [])), Sample.running).
Proof.
  assert (H : get_chats MiniJson.t MiniJson.loads Sample.store Sample.running
              = (Ok [(1, None, "llama3", None, None, MiniJson.Obj [], None,
                      MiniJson.Arr [])], Sample.running))
    by (vm_compute; reflexivity).
  split; [exact H|].
  apply (get_chats_agrees_with_get_chat MiniJson.t MiniJson.loads Sample.store
           Sample.running Sample.running Sample.database Sample.chats _
           eq_refl eq_refl H 1 None "llama3" None None (MiniJson.Obj []) None
           (MiniJson.Arr []) rowid_1_in_range).
  apply list_elem_of_singleton. reflexivity.
Defined.

Lemma get_chats_raises_when_get_chat_does_witness :
  is_Ok (get_chat MiniJson.t MiniJson.loads Sample.store 2 Sample.damaged).1
  = false
  ∧ is_Ok (get_chat MiniJson.t MiniJson.loads Sample.store 1 Sample.damaged).1
    = true
  ∧ is_Ok (get_chats MiniJson.t MiniJson.loads Sample.store Sample.damaged).1
    = false.
Proof.
  assert (Hrange : MIN_ROWID <= 2 <= MAX_ROWID)
    by (unfold MIN_ROWID, MAX_ROWID; lia).
  assert (H : is_Ok (get_chat MiniJson.t MiniJson.loads Sample.store 2
                       Sample.damaged).1 = false)
    by (vm_compute; reflexivity).
  split; [exact H|]. split; [vm_compute; reflexivity|].
  exact (get_chats_raises_when_get_chat_does MiniJson.t MiniJson.loads
           Sample.store 2 Sample.damaged Sample.damaged_database
           (mkTable {[1 := Sample.chat_row;
                      2 := Sample.chat_row_without_parameters]} 2)
           eq_refl eq_refl Hrange H).
Defined.

(** Release 0.9.0 opens the file of release 1.0.0: nothing is applied and
    the header goes down to 9000. *)
Lemma get_store_on_database_not_older_witness :
  Version.geb (int_to_semantic_version (user_version Sample.database))
    (Version.mk 0 9 0) = true
  ∧ ∃ w',
      get_store Sample.data_dir (Version.mk 0 9 0) Sample.registry
        Sample.installed = (Ok Sample.store, w')
      ∧ files w' !! Sample.path
        = Some (mkDatabase 9000 (chat Sample.database)
                  (message Sample.database))
      ∧ awaited w' = [].
Proof.
  split; [reflexivity|].
  assert (Hv : Version.representable (Version.mk 0 9 0))
    by (unfold Version.representable; simpl; lia).
  destruct (get_store_on_database_not_older Sample.data_dir (Version.mk 0 9 0)
              Sample.registry Sample.installed Sample.database eq_refl eq_refl
              Hv eq_refl) as (n & w' & Hn & Hg & Hfile & Hlog).
  injection Hn as <-. exists w'. by repeat split.
Defined.

Lemma set_user_version_then_get_user_version_witness :
  Version.representable Sample.v1_2_0
  ∧ ∃ w',
      set_user_version Sample.store Sample.v1_2_0 Sample.running = (Ok tt, w')
      ∧ get_user_version Sample.store w' = (Ok Sample.v1_2_0, w').
Proof.
  assert (Hv : Version.representable Sample.v1_2_0)
    by (unfold Version.representable; simpl; lia).
  split; [exact Hv|].
  destruct (set_user_version_then_get_user_version Sample.store Sample.v1_2_0
              Sample.running Sample.database eq_refl Hv)
    as (w' & db' & Hset & Hget & _).
  by exists w'.
Defined.

Lemma get_store_reopen_witness :
  let opened :=
    get_store Sample.data_dir Sample.v1_2_0 Sample.registry Sample.installed in
  opened.1 = Ok Sample.store
  ∧ ∃ w'',
      get_store Sample.data_dir Sample.v1_2_0 Sample.registry
        (set_store None opened.2) = (Ok Sample.store, w'')
      ∧ files w'' !! Sample.path = files opened.2 !! Sample.path
      ∧ awaited w'' = awaited opened.2.
Proof.
  cbv zeta.
  assert (H : get_store Sample.data_dir Sample.v1_2_0 Sample.registry
                Sample.installed
              = (Ok Sample.store,
                 (get_store Sample.data_dir Sample.v1_2_0 Sample.registry
                    Sample.installed).2)) by (vm_compute; reflexivity).
  split; [by rewrite H|].
  exact (get_store_reopen Sample.data_dir Sample.v1_2_0 Sample.registry
           Sample.installed _ Sample.store eq_refl H).
Defined.

Lemma new_store_is_empty_witness :
  let w' := (get_store Sample.data_dir Sample.v1_1_0 Sample.registry
               Sample.fresh).2 in
  get_chats MiniJson.t MiniJson.loads Sample.store w' = (Ok [], w')
  ∧ get_chat MiniJson.t MiniJson.loads Sample.store 1 w' = (Ok None, w')
  ∧ get_messages Sample.author Sample.author_members Sample.author_value
      Sample.store 1 w' = (Ok [], w').
Proof.
  cbv zeta.
  assert (H : get_store Sample.data_dir Sample.v1_1_0 Sample.registry
                Sample.fresh
              = (Ok Sample.store,
                 (get_store Sample.data_dir Sample.v1_1_0 Sample.registry
                    Sample.fresh).2)) by (vm_compute; reflexivity).
  destruct (new_store_is_empty Sample.data_dir Sample.v1_1_0 Sample.registry
              MiniJson.t MiniJson.loads Sample.author Sample.author_members
              Sample.author_value Sample.fresh _ Sample.store eq_refl eq_refl
              H) as (Hchats & Hchat & Hmessages).
  split; [exact Hchats|].
  split; [exact (Hchat 1 rowid_1_in_range)|].
  exact (Hmessages 1 rowid_1_in_range).
Defined.
